(** * GoodbyeModel: a shallow embedding of
      vocode/streaming/utils/goodbye_model.py

    The module classifies an utterance as a goodbye.  It talks to three
    collaborators: the embedding service behind [openai.Embedding.acreate],
    a Redis-backed configuration manager, and the file system (through
    [numpy.save] and [numpy.load]).  All three are made explicit in a
    [World] record that every operation threads through; exceptions are
    values of the type [exn].

    Conventions of the embedding.
    - A Python [str] is a [string] whose characters are the code points
      below 256; [lower] and [strip] follow [str.lower] and [str.strip]
      on that range.
    - A NumPy [float64] is a primitive binary64 [float].  The inner
      product under [@] is computed by the platform's BLAS; it is a
      component of the world, and the general properties hold for
      every such kernel.
    - A one-dimensional array is a [list float]; a two-dimensional array
      is an [ndarray] record carrying its shape and its rows.
    - An [async def] call builds a coroutine object; only [await] runs
      it.  Each awaited call is a monadic bind; a coroutine that the
      source returns without awaiting stays a value ([PCoroutine]). *)

From Stdlib Require Import Floats.
From stdpp Require Import base strings list gmap.

Local Open Scope string_scope.
Set Warnings "-inexact-float".

(** ** Python strings *)

Module Str.

Definition in_range (lo hi n : N) : bool := ((lo <=? n) && (n <=? hi))%N.

(** [str.lower] on one code point below 256: A-Z, and the Latin-1
    capitals U+00C0..U+00DE except the multiplication sign U+00D7. *)
Definition char_lower (c : Ascii.ascii) : Ascii.ascii :=
  let n := Ascii.N_of_ascii c in
  if in_range 65 90 n || (in_range 192 222 n && negb (n =? 215)%N)
  then Ascii.ascii_of_N (n + 32)
  else c.

Fixpoint lower (s : string) : string :=
  match s with
  | EmptyString => EmptyString
  | String c t => String (char_lower c) (lower t)
  end.

(** [str.isspace] on one code point below 256. *)
Definition isspace (c : Ascii.ascii) : bool :=
  let n := Ascii.N_of_ascii c in
  in_range 9 13 n || in_range 28 32 n || (n =? 133)%N || (n =? 160)%N.

Fixpoint lstrip (s : string) : string :=
  match s with
  | EmptyString => EmptyString
  | String c t => if isspace c then lstrip t else s
  end.

Fixpoint rstrip (s : string) : string :=
  match s with
  | EmptyString => EmptyString
  | String c t =>
      match rstrip t with
      | EmptyString => if isspace c then EmptyString else String c EmptyString
      | t' => String c t'
      end
  end.

Definition strip (s : string) : string := rstrip (lstrip s).

(** [needle in hay] *)
Fixpoint contains (needle hay : string) : bool :=
  String.prefix needle hay ||
  match hay with
  | EmptyString => false
  | String _ t => contains needle t
  end.

(** [s.endswith(suffix)] *)
Definition endswith (s suffix : string) : bool :=
  let n := String.length s in
  let k := String.length suffix in
  (k <=? n)%nat && String.eqb (String.substring (n - k) k s) suffix.

(** Truth value of a string: the empty string is falsy. *)
Definition truthy (s : string) : bool :=
  match s with EmptyString => false | _ => true end.

End Str.

(** Truth value of an [Optional[str]]. *)
Definition opt_truthy (o : option string) : bool :=
  match o with Some s => Str.truthy s | None => false end.

(** [a or b] on [Optional[str]] operands. *)
Definition py_or (a b : option string) : option string :=
  if opt_truthy a then a else b.

(** ** Exceptions and results *)

Inductive exn : Type :=
| AssertionError (msg : string)
| ValueError (msg : string)
    (* raised by the source itself *)
| NumpyError (msg : string)
    (* an exception raised inside a NumPy operation *)
| ProviderError (msg : string)
    (* whatever the embedding call or the indexing of its response raises *)
| OSError (msg : string).
    (* FileNotFoundError, PermissionError and the like, raised when a
       file cannot be opened *)

Inductive result (A : Type) : Type :=
| Ok (a : A)
| Raise (e : exn).
Arguments Ok {A} a.
Arguments Raise {A} e.

Definition is_ok {A} (r : result A) : bool :=
  match r with Ok _ => true | Raise _ => false end.

(** ** NumPy arrays *)

Module Np.

Local Open Scope float_scope.

(** A two-dimensional [float64] array of shape [(nrows, ncols)]. *)
Record ndarray : Type := mk_ndarray {
  nrows : nat;
  ncols : nat;
  rows : list (list float)
}.

Definition wf (m : ndarray) : Prop :=
  length (rows m) = nrows m ∧ Forall (λ r, length r = ncols m) (rows m).

Definition size (m : ndarray) : nat := (nrows m * ncols m)%nat.

(** [np.empty((r, c))]: a fresh array whose cells hold whatever the
    allocator left there; [junk i j] is that content. *)
Definition empty (junk : nat → nat → float) (r c : nat) : ndarray :=
  mk_ndarray r c (map (λ i, map (junk i) (seq 0 c)) (seq 0 r)).

(** [m[:, j]] *)
Definition column (m : ndarray) (j : nat) : list float :=
  map (λ r, nth j r 0) (rows m).

(** [m[:, j] = v] for a one-dimensional [v].  Broadcasting accepts a
    [v] as long as the column, or of length one (its element fills the
    column); any other length is refused. *)
Definition set_column (m : ndarray) (j : nat) (v : list float)
  : result ndarray :=
  if decide (ncols m ≤ j)%nat then
    Raise (NumpyError "index is out of bounds for axis 1")
  else if decide (length v = nrows m) then
    Ok (mk_ndarray (nrows m) (ncols m)
          (zip_with (λ r x, <[j:=x]> r) (rows m) v))
  else
    match v with
    | [x] => Ok (mk_ndarray (nrows m) (ncols m) (map (λ r, <[j:=x]> r) (rows m)))
    | _ => Raise (NumpyError "could not broadcast input array")
    end.

(** One inner product: every product and every sum rounded, from the
    left.  It stands for the platform's kernel in the concrete worlds
    below; a BLAS may fuse or reorder the operations, and no general
    property depends on this choice. *)
Definition dot (u v : list float) : float :=
  fold_left (λ acc p, acc + fst p * snd p) (zip u v) 0.

(** [e @ m] for a one-dimensional [e] and a two-dimensional [m]:
    entry [j] of the result is the inner product of [e] with column
    [j], as the kernel [inner] computes it; the length of [e] has to be
    the row count of [m]. *)
Definition matmul (inner : list float → list float → float)
  (e : list float) (m : ndarray) : result (list float) :=
  if decide (length e = nrows m) then
    Ok (map (λ j, inner e (column m j)) (seq 0 (ncols m)))
  else
    Raise (NumpyError "matmul: Input operand 1 has a mismatch in its core dimension 0").

(** [np.maximum] on two scalars: a NaN operand wins. *)
Definition maximum (a b : float) : float :=
  if (b <=? a) || PrimFloat.is_nan a then a else b.

(** [np.max] of a one-dimensional array. *)
Definition max (l : list float) : result float :=
  match l with
  | [] => Raise (NumpyError "zero-size array to reduction operation maximum which has no identity")
  | x :: t => Ok (fold_left maximum t x)
  end.

(** Truth value of an array, as [if a:] computes it: an empty array is
    falsy (NumPy 1.x warns about it), a one-element array has the truth
    value of its element, and a larger array has none. *)
Definition truthy (m : ndarray) : result bool :=
  match size m with
  | O => Ok false
  | S O => Ok (negb (nth 0 (concat (rows m)) 0 =? 0))
  | _ => Raise (NumpyError "The truth value of an array with more than one element is ambiguous")
  end.

End Np.

(** ** The world outside the classifier *)

(** Provider selection sent with a request: [engine=...] or [model=...]. *)
Inductive selector : Type :=
| Engine (name : string)
| Model (name : string).

(** One outbound call of [openai.Embedding.acreate]: its keyword
    arguments, and the credential the [openai] module holds when the
    call is made. *)
Record request : Type := mk_request {
  req_input : string;
  req_selector : selector;
  req_api_key : option string
}.

(** An operation on the store behind the configuration manager. *)
Inductive store_op : Type :=
| StoreGet (key : string)
| StorePut (key : string) (m : Np.ndarray).

Record World : Type := mk_World {
  (* what [vocode.getenv] finds *)
  environ : gmap string string;
  (* the module attribute [openai.api_key] *)
  module_api_key : option string;
  (* the remote service together with the indexing
     [["data"][0]["embedding"]] of its response: a fixed table, as a
     mocked provider gives *)
  embedding_service : request → result (list float);
  (* the calls made so far, oldest first *)
  provider_calls : list request;
  (* the entries of the store, and the operations issued on it *)
  redis : gmap string Np.ndarray;
  redis_log : list store_op;
  (* the arrays saved in the file system, by path *)
  files : gmap string Np.ndarray;
  (* the lines printed *)
  stdout : list string;
  (* the content of freshly allocated array cells *)
  uninit : nat → nat → float;
  (* the inner product the platform computes under [@]; the order and
     the rounding of its additions belong to the BLAS in use, not to
     the source *)
  inner_product : list float → list float → float;
  (* whether the file system lets a file of that name be opened for
     writing: its directory exists and is writable *)
  can_write : string → bool
}.

Definition set_module_api_key (k : option string) (w : World) : World :=
  mk_World (environ w) k (embedding_service w) (provider_calls w)
           (redis w) (redis_log w) (files w) (stdout w) (uninit w)
           (inner_product w) (can_write w).

Definition log_provider_call (r : request) (w : World) : World :=
  mk_World (environ w) (module_api_key w) (embedding_service w)
           (provider_calls w ++ [r])
           (redis w) (redis_log w) (files w) (stdout w) (uninit w)
           (inner_product w) (can_write w).

Definition log_store_op (o : store_op) (w : World) : World :=
  mk_World (environ w) (module_api_key w) (embedding_service w)
           (provider_calls w)
           (redis w) (redis_log w ++ [o]) (files w) (stdout w) (uninit w)
           (inner_product w) (can_write w).

Definition set_redis (r : gmap string Np.ndarray) (w : World) : World :=
  mk_World (environ w) (module_api_key w) (embedding_service w)
           (provider_calls w)
           r (redis_log w) (files w) (stdout w) (uninit w)
           (inner_product w) (can_write w).

Definition set_files (f : gmap string Np.ndarray) (w : World) : World :=
  mk_World (environ w) (module_api_key w) (embedding_service w)
           (provider_calls w)
           (redis w) (redis_log w) f (stdout w) (uninit w)
           (inner_product w) (can_write w).

Definition log_stdout (line : string) (w : World) : World :=
  mk_World (environ w) (module_api_key w) (embedding_service w)
           (provider_calls w)
           (redis w) (redis_log w) (files w) (stdout w ++ [line]) (uninit w)
           (inner_product w) (can_write w).

(** The host process sets an environment variable (through
    [os.environ] or [vocode.setenv]); no code of the module does. *)
Definition host_setenv (key value : string) (w : World) : World :=
  mk_World (<[key:=value]> (environ w)) (module_api_key w)
           (embedding_service w) (provider_calls w)
           (redis w) (redis_log w) (files w) (stdout w) (uninit w)
           (inner_product w) (can_write w).

(** ** The monad of operations: state passing over [World], with
       exceptions.  A raised exception keeps the effects made before it. *)

Definition M (A : Type) : Type := World → result A * World.

Global Instance M_ret : MRet M := λ A a w, (Ok a, w).

Global Instance M_bind : MBind M := λ A B f m w,
  match m w with
  | (Ok a, w') => f a w'
  | (Raise e, w') => (Raise e, w')
  end.

Definition raise {A} (e : exn) : M A := λ w, (Raise e, w).

(** Lift a pure computation that may raise. *)
Definition lift {A} (r : result A) : M A := λ w, (r, w).

Definition gets {A} (f : World → A) : M A := λ w, (Ok (f w), w).

Definition modify (f : World → World) : M unit := λ w, (Ok tt, f w).

(** ** Collaborators *)

(** [vocode.getenv(key)].  The function is not part of the sources;
    what it finds for a key is a component of the world. *)
Definition getenv (key : string) : M (option string) :=
  gets (λ w, environ w !! key).

(** [print(line)] *)
Definition print (line : string) : M unit := modify (log_stdout line).

(** [(await openai.Embedding.acreate(input=..., engine=... | model=...))
     ["data"][0]["embedding"]] *)
Definition acreate_embedding (input : string) (sel : selector)
  : M (list float) := λ w,
  let r := mk_request input sel (module_api_key w) in
  (embedding_service w r, log_provider_call r w).

(** The handle a classifier holds on the configuration manager. *)
Inductive RedisConfigManager : Type := RedisHandle.

(** Modelled from the spec: [RedisConfigManager.get_goodbye_embeddings]
    is not part of the sources; the store boundary is
    [get(key) -> Optional<Matrix>]. *)
Definition get_goodbye_embeddings (cm : RedisConfigManager) (key : string)
  : M (option Np.ndarray) := λ w,
  (Ok (redis w !! key), log_store_op (StoreGet key) w).

(** Modelled from the spec: [RedisConfigManager.save_goodbye_embeddings]
    is not part of the sources; the store boundary is
    [put(key, matrix) -> void]. *)
Definition save_goodbye_embeddings (cm : RedisConfigManager) (key : string)
  (m : Np.ndarray) : M unit := λ w,
  (Ok tt, log_store_op (StorePut key m) (set_redis (<[key:=m]> (redis w)) w)).

(** [os.path.exists(path)] *)
Definition path_exists (path : string) : M bool :=
  gets (λ w, bool_decide (is_Some (files w !! path))).

(** [np.load(path)] *)
Definition np_load (path : string) : M Np.ndarray := λ w,
  match files w !! path with
  | Some m => (Ok m, w)
  | None => (Raise (OSError "No such file or directory"), w)
  end.

(** The file [np.save(path, _)] writes: [.npy] is appended to a path
    that does not end with it. *)
Definition npy_name (path : string) : string :=
  if Str.endswith path ".npy" then path else path ++ ".npy".

(** [np.save(path, m)]: the file is opened for writing and the array
    written to it; when the file cannot be opened the call raises and
    nothing is written. *)
Definition np_save (path : string) (m : Np.ndarray) : M unit := λ w,
  if can_write w (npy_name path) then
    (Ok tt, set_files (<[npy_name path:=m]> (files w)) w)
  else
    (Raise (OSError "No such file or directory"), w).

(** [np.empty((r, c))] *)
Definition np_empty (r c : nat) : M Np.ndarray :=
  gets (λ w, Np.empty (uninit w) r c).

(** ** The module [goodbye_model] *)

Definition SIMILARITY_THRESHOLD : float := 0.9%float.
Definition EMBEDDING_SIZE : nat := 1536.
Definition GOODBYE_PHRASES : list string :=
  [ "bye";
    "goodbye";
    "see you";
    "see you later";
    "talk to you later";
    "talk to you soon";
    "have a good day";
    "have a good night" ].

(** A coroutine object made by calling an [async def] method of the
    classifier without awaiting it: the method and its arguments. *)
Inductive coroutine : Type :=
| Co_from_redis (key : string)
| Co_from_path (path : string).

(** What the attribute [goodbye_embeddings] can hold. *)
Inductive pyval : Type :=
| PNone
| PArray (m : Np.ndarray)
| PCoroutine (c : coroutine).

Record GoodbyeModel : Type := mk_GoodbyeModel {
  embeddings_cache_path : string;
  goodbye_embeddings : pyval;
  config_manager : option RedisConfigManager;
  goodbye_phrases : list string
}.

Definition set_goodbye_embeddings (v : pyval) (self : GoodbyeModel)
  : GoodbyeModel :=
  mk_GoodbyeModel (embeddings_cache_path self) v
                  (config_manager self) (goodbye_phrases self).

(** [GoodbyeModel.__init__] *)
Definition __init__ (embeddings_cache_path : string)
  (openai_api_key : option string)
  (config_manager : option RedisConfigManager)
  (goodbye_phrases : list string) : M GoodbyeModel :=
  from_env ← getenv "OPENAI_API_KEY";
  modify (set_module_api_key (py_or openai_api_key from_env));;
  key ← gets module_api_key;
  if negb (opt_truthy key) then
    raise (ValueError "OPENAI_API_KEY must be set in environment or passed in")
  else
    mret (mk_GoodbyeModel embeddings_cache_path PNone
                          config_manager goodbye_phrases).

(** The [engine]/[model] keyword chosen from the value of
    [AZURE_OPENAI_TEXT_EMBEDDING_ENGINE]. *)
Definition provider_selection (engine : option string) : selector :=
  match engine with
  | Some name => if Str.truthy name then Engine name
                 else Model "text-embedding-ada-002"
  | None => Model "text-embedding-ada-002"
  end.

(** [GoodbyeModel.create_embedding] *)
Definition create_embedding (self : GoodbyeModel) (text : string)
  : M (list float) :=
  engine ← getenv "AZURE_OPENAI_TEXT_EMBEDDING_ENGINE";
  acreate_embedding text (provider_selection engine).

(** The [for i, goodbye_phrase in enumerate(...)] loop of
    [create_embeddings], from index [i] on. *)
Fixpoint create_embeddings_loop (self : GoodbyeModel) (i : nat)
  (phrases : list string) (embeddings : Np.ndarray) : M Np.ndarray :=
  match phrases with
  | [] => mret embeddings
  | goodbye_phrase :: rest =>
      v ← create_embedding self goodbye_phrase;
      embeddings' ← lift (Np.set_column embeddings i v);
      create_embeddings_loop self (S i) rest embeddings'
  end.

(** [GoodbyeModel.create_embeddings] *)
Definition create_embeddings (self : GoodbyeModel) : M Np.ndarray :=
  print "Creating embeddings...";;
  let size := EMBEDDING_SIZE in
  embeddings ← np_empty size (length (goodbye_phrases self));
  create_embeddings_loop self 0 (goodbye_phrases self) embeddings.

(** Truth value of what the store returned, as [if goodbye_embeddings:]
    computes it. *)
Definition opt_array_truthy (o : option Np.ndarray) : result bool :=
  match o with
  | None => Ok false
  | Some m => Np.truthy m
  end.

Definition opt_array_val (o : option Np.ndarray) : pyval :=
  match o with
  | None => PNone
  | Some m => PArray m
  end.

(** [GoodbyeModel._from_redis] *)
Definition _from_redis (self : GoodbyeModel) (key : string) : M pyval :=
  match config_manager self with
  | None => mret PNone
  | Some cm =>
      goodbye_embeddings ← get_goodbye_embeddings cm key;
      hit ← lift (opt_array_truthy goodbye_embeddings);
      if hit : bool then mret (opt_array_val goodbye_embeddings)
      else
        embeddings ← create_embeddings self;
        save_goodbye_embeddings cm key embeddings;;
        mret (PArray embeddings)
  end.

(** [GoodbyeModel._from_path] *)
Definition _from_path (self : GoodbyeModel) (path : string) : M pyval :=
  present ← path_exists path;
  if present : bool then
    m ← np_load path; mret (PArray m)
  else
    embeddings ← create_embeddings self;
    np_save path embeddings;;
    mret (PArray embeddings).

(** [GoodbyeModel.load_or_create_embeddings].  Both [return] statements
    call an [async def] method and hand back the coroutine object it
    makes: there is no [await] in front of either call. *)
Definition load_or_create_embeddings (self : GoodbyeModel) (path key : string)
  : M pyval :=
  if bool_decide (is_Some (config_manager self)) && Str.truthy key then
    mret (PCoroutine (Co_from_redis key))
  else
    mret (PCoroutine (Co_from_path path)).

(** [GoodbyeModel.initialize_embeddings]; the updated instance is the
    result. *)
Definition initialize_embeddings (self : GoodbyeModel) : M GoodbyeModel :=
  v ← load_or_create_embeddings self
        (embeddings_cache_path self ++ "/goodbye_embeddings.npy") "default";
  mret (set_goodbye_embeddings v self).

(** [embedding @ v] for whatever the attribute holds: an operand that is
    not an array has no dimensions to multiply along. *)
Definition py_matmul (inner : list float → list float → float)
  (embedding : list float) (v : pyval) : result (list float) :=
  match v with
  | PArray m => Np.matmul inner embedding m
  | PNone | PCoroutine _ =>
      Raise (NumpyError "matmul: Input operand 1 does not have enough dimensions")
  end.

(** [embedding @ v] on the platform of the world. *)
Definition np_matmul (embedding : list float) (v : pyval) : M (list float) :=
  λ w, (py_matmul (inner_product w) embedding v, w).

(** [GoodbyeModel.is_goodbye] *)
Definition is_goodbye (self : GoodbyeModel) (text : string) : M bool :=
  match goodbye_embeddings self with
  | PNone => raise (AssertionError "Embeddings not initialized")
  | _ =>
      if Str.contains "bye" (Str.lower text) then mret true
      else
        embedding ← create_embedding self (Str.lower (Str.strip text));
        similarity_results ← np_matmul embedding (goodbye_embeddings self);
        top ← lift (Np.max similarity_results);
        mret (PrimFloat.ltb SIMILARITY_THRESHOLD top)
  end.

(** Running a coroutine object of this instance, as [await c] would. *)
Definition await (self : GoodbyeModel) (c : coroutine) : M pyval :=
  match c with
  | Co_from_redis key => _from_redis self key
  | Co_from_path path => _from_path self path
  end.

(** ** Definitions used to state the properties *)

(** The request [create_embedding] sends for [text] from world [w]. *)
Definition request_of (w : World) (text : string) : request :=
  mk_request text
    (provider_selection (environ w !! "AZURE_OPENAI_TEXT_EMBEDDING_ENGINE"))
    (module_api_key w).

(** The world after the provider calls [rs], made in that order. *)
Definition log_provider_calls (rs : list request) (w : World) : World :=
  mk_World (environ w) (module_api_key w) (embedding_service w)
           (provider_calls w ++ rs)
           (redis w) (redis_log w) (files w) (stdout w) (uninit w)
           (inner_product w) (can_write w).

(** The similarity scores of the slow path: one inner product per
    reference column. *)
Definition similarity_scores (inner : list float → list float → float)
  (e : list float) (m : Np.ndarray) : list float :=
  map (λ j, inner e (Np.column m j)) (seq 0 (Np.ncols m)).

(** A provider answer that [create_embeddings] can place in a column. *)
Definition placeable (w : World) (phrase : string) : Prop :=
  ∃ v, embedding_service w (request_of w phrase) = Ok v ∧
       (length v = EMBEDDING_SIZE ∨ length v = 1).

(** A provider answer of the embedding dimension. *)
Definition embeds (w : World) (phrase : string) : Prop :=
  ∃ v, embedding_service w (request_of w phrase) = Ok v ∧
       length v = EMBEDDING_SIZE.

(** One call a client makes on a classifier. *)
Inductive call : Type :=
| CallInitialize
| CallClassify (text : string)
| CallCreateEmbedding (text : string)
| CallCreateEmbeddings
| CallLoadOrCreate (path key : string)
| CallFromRedis (key : string)
| CallFromPath (path : string).

(** A client that makes one call and goes on whatever the outcome. *)
Definition run_call (c : call) (self : GoodbyeModel) (w : World)
  : GoodbyeModel * World :=
  match c with
  | CallInitialize =>
      match initialize_embeddings self w with
      | (Ok self', w') => (self', w')
      | (Raise _, w') => (self, w')
      end
  | CallClassify text => (self, snd (is_goodbye self text w))
  | CallCreateEmbedding text => (self, snd (create_embedding self text w))
  | CallCreateEmbeddings => (self, snd (create_embeddings self w))
  | CallLoadOrCreate path key =>
      (self, snd (load_or_create_embeddings self path key w))
  | CallFromRedis key => (self, snd (_from_redis self key w))
  | CallFromPath path => (self, snd (_from_path self path w))
  end.

Fixpoint run_calls (cs : list call) (self : GoodbyeModel) (w : World)
  : GoodbyeModel * World :=
  match cs with
  | [] => (self, w)
  | c :: rest => let '(self', w') := run_call c self w in run_calls rest self' w'
  end.

(** Whether the attribute [goodbye_embeddings] holds an array. *)
Definition holds_array (self : GoodbyeModel) : bool :=
  match goodbye_embeddings self with
  | PArray _ => true
  | _ => false
  end.

(** [w'] is [w] after some provider calls that all carry the selection
    the environment of [w] gives, the environment being unchanged. *)
Definition same_selection (w w' : World) : Prop :=
  environ w' = environ w ∧
  ∃ new, provider_calls w' = (provider_calls w ++ new)%list ∧
    Forall (λ r, req_selector r
                 = provider_selection
                     (environ w !! "AZURE_OPENAI_TEXT_EMBEDDING_ENGINE")) new.

(** An order on the specification of floats that [<=?] decides away
    from NaN: sign class first, then exponent, then mantissa. *)
Module FloatOrder.

Definition sf_key (f : spec_float) : Z * Z * Z :=
  match f with
  | S754_nan => (0, 0, 0)
  | S754_zero _ => (0, 0, 0)
  | S754_infinity true => (-2, 0, 0)
  | S754_infinity false => (2, 0, 0)
  | S754_finite true m e => (-1, - e, Z.neg m)
  | S754_finite false m e => (1, e, Z.pos m)
  end%Z.

Definition lex_le (a b : Z * Z * Z) : Prop :=
  let '(a1, a2, a3) := a in
  let '(b1, b2, b3) := b in
  (a1 < b1 ∨ (a1 = b1 ∧ (a2 < b2 ∨ (a2 = b2 ∧ a3 ≤ b3))))%Z.

End FloatOrder.

(** ** Concrete worlds and classifiers *)

Module Scenario.

Local Open Scope float_scope.

(** A mocked provider: two utterances get two-dimensional embeddings,
    the reference phrases get embeddings of the full dimension, and
    every other text times out. *)
Definition service (r : request) : result (list float) :=
  if String.eqb (req_input r) "talk to you later" then Ok [0.6; 0.8]
  else if String.eqb (req_input r) "what time is it" then Ok [0.2; 0]
  else if String.eqb (req_input r) "bye" then Ok (repeat 0.5 EMBEDDING_SIZE)
  else if String.eqb (req_input r) "see you" then Ok (repeat 0.25 EMBEDDING_SIZE)
  else Raise (ProviderError "timeout").

Definition world : World :=
  mk_World ∅ None service [] ∅ [] ∅ [] (λ _ _, 7)
           Np.dot (λ _, true).

(** Reference columns for ["bye"; "see you"] in two dimensions. *)
Definition reference : Np.ndarray :=
  Np.mk_ndarray 2 2 [[1; 0.55]; [0; 0.775]].

Definition phrases : list string := ["bye"; "see you"].

Definition classifier : GoodbyeModel :=
  mk_GoodbyeModel "/var/cache" (PArray reference) None phrases.

(** A classifier as [__init__] leaves it. *)
Definition fresh : GoodbyeModel :=
  mk_GoodbyeModel "/var/cache" PNone None phrases.

Definition fresh_with_store : GoodbyeModel :=
  mk_GoodbyeModel "/var/cache" PNone (Some RedisHandle) phrases.

(** A list whose third phrase the provider does not answer. *)
Definition failing : GoodbyeModel :=
  mk_GoodbyeModel "/var/cache" PNone (Some RedisHandle)
                  ["bye"; "see you"; "so long"].

Definition cache_file : string := "/var/cache/goodbye_embeddings.npy".

(** An array cached for some other phrase list. *)
Definition stale : Np.ndarray :=
  Np.mk_ndarray EMBEDDING_SIZE 1 (repeat [0.125] EMBEDDING_SIZE).

Definition world_with_stale_file : World :=
  mk_World ∅ None service [] ∅ [] {[ cache_file := stale ]} [] (λ _ _, 7)
           Np.dot (λ _, true).

Definition world_with_stale_entry : World :=
  mk_World ∅ None service [] {[ "default" := stale ]} [] ∅ [] (λ _ _, 7)
           Np.dot (λ _, true).

Definition single : GoodbyeModel :=
  mk_GoodbyeModel "/var/cache" PNone None ["bye"].


(** The world after a first classifier was constructed with the
    credential "sk-A". *)
Definition world_after_a : World :=
  set_module_api_key (Some "sk-A") world.

Definition instance_a : GoodbyeModel :=
  mk_GoodbyeModel "/var/cache/a" PNone None phrases.

Definition instance_b : GoodbyeModel :=
  mk_GoodbyeModel "/var/cache/b" PNone None phrases.

End Scenario.

(** ** The manual test entry point *)

(** How the coroutine [main] comes to an end.  Its loop has no exit, so
    it ends in an exception of the classifier or, when standard input
    is exhausted, in the [EOFError] of [input]. *)
Inductive main_end : Type :=
| MainRaise (e : exn)
| MainEOFError.

(** [str(b)] for the boolean that [print] receives. *)
Definition str_of_bool (b : bool) : string :=
  if b then "True" else "False".

(** The loop [while True: print(await model.is_goodbye(input("Text: ")))]
    over the lines standard input still holds: [input] writes its
    prompt and takes the next line. *)
Fixpoint main_loop (model : GoodbyeModel) (stdin : list string) (w : World)
  : main_end * World :=
  let w := log_stdout "Text: " w in
  match stdin with
  | [] => (MainEOFError, w)
  | line :: rest =>
      match is_goodbye model line w with
      | (Ok b, w') => main_loop model rest (log_stdout (str_of_bool b) w')
      | (Raise e, w') => (MainRaise e, w')
      end
  end.

(** [main()] of the [__main__] block, run in the world that
    [load_dotenv()] leaves.  [GoodbyeModel()] takes every default: the
    cache directory beside the module ([default_path], fixed when the
    class is defined), no credential, no configuration manager, the
    phrases [GOODBYE_PHRASES]. *)
Definition main (default_path : string) (stdin : list string) (w : World)
  : main_end * World :=
  match __init__ default_path None None GOODBYE_PHRASES w with
  | (Ok model, w') => main_loop model stdin w'
  | (Raise e, w') => (MainRaise e, w')
  end.

(** [w'] is [w] after the provider calls for the texts [ts], each sent
    with the selection and the credential of [w]; the environment, the
    credential and the provider are unchanged. *)
Definition provider_trace (ts : list string) (w w' : World) : Prop :=
  environ w' = environ w ∧
  module_api_key w' = module_api_key w ∧
  embedding_service w' = embedding_service w ∧
  provider_calls w' = (provider_calls w ++ map (request_of w) ts)%list.

(** No character of the string is white space. *)
Fixpoint nospace (s : string) : bool :=
  match s with
  | EmptyString => true
  | String c t => negb (Str.isspace c) && nospace t
  end.

(** [m1] and [m2] have one shape and hold the same values in the
    columns before [i]. *)
Definition agree_before (i : nat) (m1 m2 : Np.ndarray) : Prop :=
  Np.nrows m1 = Np.nrows m2 ∧ Np.ncols m1 = Np.ncols m2 ∧
  Forall2 (λ r1 r2, length r1 = length r2 ∧ take i r1 = take i r2)
          (Np.rows m1) (Np.rows m2).

(** Two worlds that differ at most in what fresh array cells hold. *)
Definition same_but_uninit (w1 w2 : World) : Prop :=
  environ w1 = environ w2 ∧ module_api_key w1 = module_api_key w2 ∧
  embedding_service w1 = embedding_service w2 ∧
  provider_calls w1 = provider_calls w2 ∧
  redis w1 = redis w2 ∧ redis_log w1 = redis_log w2 ∧
  files w1 = files w2 ∧ stdout w1 = stdout w2 ∧
  inner_product w1 = inner_product w2 ∧ can_write w1 = can_write w2.

(** More worlds: a provider whose answers have other lengths. *)
Module Edge.

Local Open Scope float_scope.

(** "bye" is answered with a single number, "see you" with a vector of
    the full dimension, "so long" with three numbers, and nothing
    else is answered. *)
Definition service (r : request) : result (list float) :=
  if String.eqb (req_input r) "bye" then Ok [0.5]
  else if String.eqb (req_input r) "see you" then Ok (repeat 0.25 EMBEDDING_SIZE)
  else if String.eqb (req_input r) "so long" then Ok [1; 2; 3]
  else Raise (ProviderError "timeout").

Definition world : World :=
  mk_World ∅ None service [] ∅ [] ∅ [] (λ _ _, 7)
           Np.dot (λ _, true).

Definition broadcasting : GoodbyeModel :=
  mk_GoodbyeModel "/var/cache" PNone (Some RedisHandle) ["bye"; "see you"].

Definition mismatched : GoodbyeModel :=
  mk_GoodbyeModel "/var/cache" PNone (Some RedisHandle)
                  ["see you"; "so long"; "bye"].

(** The world of the scenario with other values in fresh cells. *)
Definition world_other_junk : World :=
  mk_World ∅ None Scenario.service [] ∅ [] ∅ [] (λ i j, 9)
           Np.dot (λ _, true).

(** The world of the scenario with the credential in the environment. *)
Definition world_with_env_key : World :=
  mk_World {[ "OPENAI_API_KEY" := "sk-env" ]} None Scenario.service
           [] ∅ [] ∅ [] (λ _ _, 7)
           Np.dot (λ _, true).

(** A provider whose answer holds an infinity: against the reference of
    the scenario the first score is NaN and the second is infinite. *)
Definition world_with_infinity : World :=
  mk_World ∅ None (λ _, Ok [2; PrimFloat.infinity]) [] ∅ [] ∅ [] (λ _ _, 7)
           Np.dot (λ _, true).

(** The world of the scenario on a file system that refuses every
    write: the cache directory does not exist. *)
Definition world_read_only : World :=
  mk_World ∅ None Scenario.service [] ∅ [] ∅ [] (λ _ _, 7)
           Np.dot (λ _, false).

(** A second classifier on the cache file of the first, with phrases
    of its own. *)
Definition other_phrases : GoodbyeModel :=
  mk_GoodbyeModel "/var/cache" PNone None ["so long"; "farewell"; "ciao"].

End Edge.

(** The strict order that goes with [FloatOrder.lex_le]. *)
Definition lex_lt (a b : Z * Z * Z) : Prop :=
  let '(a1, a2, a3) := a in
  let '(b1, b2, b3) := b in
  (a1 < b1 ∨ (a1 = b1 ∧ (a2 < b2 ∨ (a2 = b2 ∧ a3 < b3))))%Z.

(** * Properties *)

(** ** Comparison of floats *)

Module FloatOrderFacts.
Import FloatOrder.

Ltac close_case :=
  simpl; split; intros; solve [reflexivity | discriminate | lia].

Lemma SFleb_lex f1 f2 :
  f1 ≠ S754_nan → f2 ≠ S754_nan →
  SFleb f1 f2 = true ↔ lex_le (sf_key f1) (sf_key f2).
Proof.
  intros H1 H2. unfold SFleb, SFcompare.
  destruct f1 as [s1|s1| |s1 m1 e1], f2 as [s2|s2| |s2 m2 e2];
    try congruence;
    try (destruct s1); try (destruct s2); try close_case.
  - destruct (Z.compare_spec e1 e2); try close_case.
    change (Pos.compare_cont Eq m1 m2) with (Pos.compare m1 m2).
    destruct (Pos.compare_spec m1 m2); close_case.
  - destruct (Z.compare_spec e1 e2); try close_case.
    change (Pos.compare_cont Eq m1 m2) with (Pos.compare m1 m2).
    destruct (Pos.compare_spec m1 m2); close_case.
Qed.

Lemma lex_le_refl a : lex_le a a.
Proof. destruct a as [[? ?] ?]. simpl. lia. Qed.

Lemma lex_le_trans a b c : lex_le a b → lex_le b c → lex_le a c.
Proof.
  destruct a as [[? ?] ?], b as [[? ?] ?], c as [[? ?] ?]. simpl. lia.
Qed.

Lemma lex_le_total a b : lex_le a b ∨ lex_le b a.
Proof. destruct a as [[? ?] ?], b as [[? ?] ?]. simpl. lia. Qed.

Lemma SFeqb_refl f : SFeqb f f = true ↔ f ≠ S754_nan.
Proof.
  unfold SFeqb, SFcompare.
  destruct f as [s|s| |s m e]; try (destruct s); simpl;
    try (split; intros; solve [reflexivity | discriminate | congruence]).
  all: rewrite Z.compare_refl;
    change (Pos.compare_cont Eq m m) with (Pos.compare m m);
    rewrite Pos.compare_refl; simpl; split; intros; congruence.
Qed.

Lemma is_nan_spec x : PrimFloat.is_nan x = false ↔ Prim2SF x ≠ S754_nan.
Proof.
  unfold PrimFloat.is_nan. rewrite FloatAxioms.eqb_spec.
  pose proof (SFeqb_refl (Prim2SF x)) as E.
  destruct (SFeqb (Prim2SF x) (Prim2SF x)); simpl; split; intros H.
  - apply E. reflexivity.
  - reflexivity.
  - discriminate.
  - apply E in H. discriminate.
Qed.

Lemma leb_lex x y :
  PrimFloat.is_nan x = false → PrimFloat.is_nan y = false →
  PrimFloat.leb x y = true ↔ lex_le (sf_key (Prim2SF x)) (sf_key (Prim2SF y)).
Proof.
  intros Hx Hy. rewrite FloatAxioms.leb_spec. apply SFleb_lex; apply is_nan_spec; assumption.
Qed.

Lemma leb_refl x : PrimFloat.is_nan x = false → PrimFloat.leb x x = true.
Proof. intros Hx. apply leb_lex; auto using lex_le_refl. Qed.

Lemma leb_trans x y z :
  PrimFloat.is_nan x = false → PrimFloat.is_nan y = false →
  PrimFloat.is_nan z = false →
  PrimFloat.leb x y = true → PrimFloat.leb y z = true →
  PrimFloat.leb x z = true.
Proof.
  intros Hx Hy Hz Hxy Hyz. apply leb_lex; try assumption.
  apply lex_le_trans with (sf_key (Prim2SF y)); apply leb_lex; assumption.
Qed.

Lemma leb_total x y :
  PrimFloat.is_nan x = false → PrimFloat.is_nan y = false →
  PrimFloat.leb x y = false → PrimFloat.leb y x = true.
Proof.
  intros Hx Hy Hxy. apply leb_lex; try assumption.
  destruct (lex_le_total (sf_key (Prim2SF x)) (sf_key (Prim2SF y))) as [H|H];
    [| exact H].
  apply leb_lex in H; congruence.
Qed.

Lemma ltb_nan_r x y : PrimFloat.is_nan y = true → PrimFloat.ltb x y = false.
Proof.
  intros Hy. rewrite FloatAxioms.ltb_spec.
  destruct (Prim2SF y) eqn:E;
    try (assert (PrimFloat.is_nan y = false)
           by (apply is_nan_spec; congruence); congruence).
  unfold SFltb, SFcompare. destruct (Prim2SF x); reflexivity.
Qed.

Lemma leb_nan_l x y : PrimFloat.is_nan x = true → PrimFloat.leb x y = false.
Proof.
  intros Hx. rewrite FloatAxioms.leb_spec.
  destruct (Prim2SF x) eqn:E; try reflexivity;
    assert (PrimFloat.is_nan x = false) by (apply is_nan_spec; congruence);
    congruence.
Qed.

End FloatOrderFacts.

(** ** [np.max] returns a greatest element *)

Module NpFacts.
Import FloatOrderFacts.

Lemma maximum_cases a b : Np.maximum a b = a ∨ Np.maximum a b = b.
Proof. unfold Np.maximum. destruct (_ || _); auto. Qed.

Lemma fold_maximum_elem t : ∀ x, fold_left Np.maximum t x ∈ x :: t.
Proof.
  induction t as [|b t IH]; intros x; simpl.
  - apply list_elem_of_here.
  - specialize (IH (Np.maximum x b)).
    apply elem_of_cons in IH as [E|IH].
    + rewrite E. destruct (maximum_cases x b) as [->| ->].
      * apply list_elem_of_here.
      * apply list_elem_of_further, list_elem_of_here.
    + do 2 apply list_elem_of_further. exact IH.
Qed.

Lemma maximum_bound a b :
  PrimFloat.is_nan a = false → PrimFloat.is_nan b = false →
  PrimFloat.is_nan (Np.maximum a b) = false ∧
  PrimFloat.leb a (Np.maximum a b) = true ∧
  PrimFloat.leb b (Np.maximum a b) = true.
Proof.
  intros Ha Hb. unfold Np.maximum. rewrite Ha, orb_false_r.
  destruct (PrimFloat.leb b a) eqn:E.
  - auto using leb_refl.
  - auto using leb_refl, leb_total.
Qed.

Lemma fold_maximum_bound t : ∀ x,
  PrimFloat.is_nan x = false →
  Forall (λ s, PrimFloat.is_nan s = false) t →
  PrimFloat.is_nan (fold_left Np.maximum t x) = false ∧
  Forall (λ s, PrimFloat.leb s (fold_left Np.maximum t x) = true) (x :: t).
Proof.
  induction t as [|b t IH]; intros x Hx Ht; simpl.
  - split; [exact Hx|]. constructor; [apply leb_refl, Hx | constructor].
  - apply Forall_cons in Ht as [Hb Ht].
    destruct (maximum_bound x b Hx Hb) as (Hn & Hxa & Hba).
    destruct (IH _ Hn Ht) as [Hr Hall]. split; [exact Hr|].
    apply Forall_cons in Hall as [Hm Hall].
    constructor; [|constructor; [|exact Hall]].
    + eapply leb_trans; [exact Hx | exact Hn | exact Hr | exact Hxa | exact Hm].
    + eapply leb_trans; [exact Hb | exact Hn | exact Hr | exact Hba | exact Hm].
Qed.

(** On a non-empty array [np.max] succeeds with an element of the
    array, which bounds every element when none is NaN. *)
Lemma max_spec (l : list float) :
  l ≠ [] →
  ∃ top, Np.max l = Ok top ∧ top ∈ l ∧
    (Forall (λ s, PrimFloat.is_nan s = false) l →
     Forall (λ s, PrimFloat.leb s top = true) l).
Proof.
  destruct l as [|x t]; [congruence|]. intros _.
  exists (fold_left Np.maximum t x). split; [reflexivity|].
  split; [apply fold_maximum_elem|].
  intros H. apply Forall_cons in H as [Hx Ht].
  apply fold_maximum_bound; assumption.
Qed.

Lemma maximum_nan_l a b :
  PrimFloat.is_nan a = true → Np.maximum a b = a.
Proof. intros Ha. unfold Np.maximum. by rewrite Ha, orb_true_r. Qed.

Lemma maximum_nan_r a b :
  PrimFloat.is_nan a = false → PrimFloat.is_nan b = true → Np.maximum a b = b.
Proof.
  intros Ha Hb. unfold Np.maximum. by rewrite Ha, (leb_nan_l b a Hb).
Qed.

Lemma fold_maximum_nan_acc t : ∀ x,
  PrimFloat.is_nan x = true → PrimFloat.is_nan (fold_left Np.maximum t x) = true.
Proof.
  induction t as [|b t IH]; intros x Hx; simpl; [exact Hx|].
  apply IH. by rewrite maximum_nan_l.
Qed.

(** A NaN anywhere in the array makes [np.max] return NaN. *)
Lemma fold_maximum_nan t : ∀ x,
  Exists (λ s, PrimFloat.is_nan s = true) (x :: t) →
  PrimFloat.is_nan (fold_left Np.maximum t x) = true.
Proof.
  induction t as [|b t IH]; intros x H; simpl.
  - apply Exists_cons in H as [H|H]; [exact H | by apply Exists_nil in H].
  - destruct (PrimFloat.is_nan x) eqn:Hx.
    + apply fold_maximum_nan_acc. by rewrite maximum_nan_l.
    + apply Exists_cons in H as [H|H]; [congruence|].
      apply Exists_cons in H as [H|H].
      * apply fold_maximum_nan_acc. by rewrite maximum_nan_r.
      * apply IH. apply Exists_cons. right. exact H.
Qed.

End NpFacts.

(** ** One embedding call *)

Lemma create_embedding_eq (self : GoodbyeModel) (text : string) (w : World) :
  create_embedding self text w =
  (embedding_service w (request_of w text),
   log_provider_call (request_of w text) w).
Proof. reflexivity. Qed.

Lemma log_provider_call_calls r w :
  log_provider_call r w = log_provider_calls [r] w.
Proof. reflexivity. Qed.

Lemma log_provider_calls_app a b w :
  log_provider_calls b (log_provider_calls a w) = log_provider_calls (a ++ b) w.
Proof. unfold log_provider_calls. simpl. by rewrite app_assoc. Qed.

Lemma log_provider_calls_nil w : log_provider_calls [] w = w.
Proof. destruct w. unfold log_provider_calls. simpl. by rewrite app_nil_r. Qed.

(** ** Classification *)

(** C2: when the lowercased input contains "bye" and the attribute
    [goodbye_embeddings] is set, [is_goodbye] returns [True] and leaves
    the world as it was; in particular the log of provider calls does
    not grow. *)
Theorem is_goodbye_fast_path (self : GoodbyeModel) (text : string) (w : World) :
  goodbye_embeddings self ≠ PNone →
  Str.contains "bye" (Str.lower text) = true →
  is_goodbye self text w = (Ok true, w) ∧
  provider_calls (snd (is_goodbye self text w)) = provider_calls w.
Proof.
  intros Hinit Hbye. unfold is_goodbye. rewrite Hbye.
  destruct (goodbye_embeddings self); [congruence | split; reflexivity ..].
Qed.

Lemma is_goodbye_fast_path_witness :
  is_goodbye Scenario.classifier "Good BYE, then" Scenario.world
    = (Ok true, Scenario.world) ∧
  provider_calls (snd (is_goodbye Scenario.classifier "Good BYE, then"
                                  Scenario.world)) = [].
Proof.
  apply (is_goodbye_fast_path Scenario.classifier "Good BYE, then" Scenario.world).
  - discriminate.
  - reflexivity.
Defined.

(** The slow path, step by step, for an attribute that holds an array. *)
Lemma is_goodbye_slow_eq (self : GoodbyeModel) (m : Np.ndarray) (text : string)
  (w : World) :
  goodbye_embeddings self = PArray m →
  Str.contains "bye" (Str.lower text) = false →
  is_goodbye self text w =
  (match embedding_service w (request_of w (Str.lower (Str.strip text))) with
   | Ok e =>
       match Np.matmul (inner_product w) e m with
       | Ok scores =>
           match Np.max scores with
           | Ok top => Ok (PrimFloat.ltb SIMILARITY_THRESHOLD top)
           | Raise x => Raise x
           end
       | Raise x => Raise x
       end
   | Raise x => Raise x
   end,
   log_provider_call (request_of w (Str.lower (Str.strip text))) w).
Proof.
  intros Hm Hbye. unfold is_goodbye. rewrite Hm, Hbye.
  unfold mbind, M_bind. rewrite create_embedding_eq.
  destruct (embedding_service w _) as [e|x]; [|reflexivity].
  unfold np_matmul, lift, py_matmul. simpl.
  destruct (Np.matmul (inner_product w) e m) as [scores|x]; [|reflexivity].
  destruct (Np.max scores) as [top|x]; reflexivity.
Qed.

(** X20: the comparison lines 85 to 87 make when the attribute does
    hold an array (put there by hand: no method does).  On an input
    whose lowercasing has no "bye", with a reference
    array of at least one column in the attribute and a provider that
    answers the normalised text with a vector as long as the columns,
    [is_goodbye] returns whether the maximum of the inner products of
    that vector with the columns is strictly above 0.9.  The maximum is
    one of the scores and bounds all of them (when none is NaN); a
    maximum equal to the threshold gives [False].  The provider is
    called once, with the stripped and lowercased text. *)
Theorem is_goodbye_threshold (self : GoodbyeModel) (m : Np.ndarray)
  (text : string) (w : World) (e : list float) :
  goodbye_embeddings self = PArray m →
  Str.contains "bye" (Str.lower text) = false →
  embedding_service w (request_of w (Str.lower (Str.strip text))) = Ok e →
  length e = Np.nrows m →
  Np.ncols m ≠ 0 →
  ∃ top,
    Np.max (similarity_scores (inner_product w) e m) = Ok top ∧
    top ∈ similarity_scores (inner_product w) e m ∧
    (Forall (λ s, PrimFloat.is_nan s = false)
            (similarity_scores (inner_product w) e m) →
     Forall (λ s, PrimFloat.leb s top = true)
            (similarity_scores (inner_product w) e m)) ∧
    fst (is_goodbye self text w) = Ok (PrimFloat.ltb SIMILARITY_THRESHOLD top) ∧
    (fst (is_goodbye self text w) = Ok true ↔
     PrimFloat.ltb SIMILARITY_THRESHOLD top = true) ∧
    (top = SIMILARITY_THRESHOLD → fst (is_goodbye self text w) = Ok false) ∧
    provider_calls (snd (is_goodbye self text w))
      = (provider_calls w ++ [request_of w (Str.lower (Str.strip text))])%list.
Proof.
  intros Hm Hbye He Hlen Hcols.
  destruct (NpFacts.max_spec (similarity_scores (inner_product w) e m))
    as (top & Hmax & Hin & Hub).
  { unfold similarity_scores. destruct (Np.ncols m); [congruence | discriminate]. }
  assert (Hres : fst (is_goodbye self text w)
                 = Ok (PrimFloat.ltb SIMILARITY_THRESHOLD top)).
  { rewrite (is_goodbye_slow_eq self m text w Hm Hbye), He. simpl.
    unfold Np.matmul. rewrite decide_True by exact Hlen.
    fold (similarity_scores (inner_product w) e m). by rewrite Hmax. }
  exists top. split; [exact Hmax|]. split; [exact Hin|]. split; [exact Hub|].
  split; [exact Hres|]. split; [|split].
  - rewrite Hres. split; congruence.
  - intros ->. rewrite Hres. reflexivity.
  - rewrite (is_goodbye_slow_eq self m text w Hm Hbye). reflexivity.
Qed.

Lemma is_goodbye_threshold_witness :
  ∃ top,
    Np.max (similarity_scores Np.dot [0.6; 0.8]%float Scenario.reference) = Ok top ∧
    top ∈ similarity_scores Np.dot [0.6; 0.8]%float Scenario.reference ∧
    (Forall (λ s, PrimFloat.is_nan s = false)
            (similarity_scores Np.dot [0.6; 0.8]%float Scenario.reference) →
     Forall (λ s, PrimFloat.leb s top = true)
            (similarity_scores Np.dot [0.6; 0.8]%float Scenario.reference)) ∧
    fst (is_goodbye Scenario.classifier " Talk to you LATER " Scenario.world)
      = Ok (PrimFloat.ltb SIMILARITY_THRESHOLD top) ∧
    (fst (is_goodbye Scenario.classifier " Talk to you LATER " Scenario.world)
      = Ok true ↔ PrimFloat.ltb SIMILARITY_THRESHOLD top = true) ∧
    (top = SIMILARITY_THRESHOLD →
     fst (is_goodbye Scenario.classifier " Talk to you LATER " Scenario.world)
       = Ok false) ∧
    provider_calls
      (snd (is_goodbye Scenario.classifier " Talk to you LATER " Scenario.world))
      = (provider_calls Scenario.world
           ++ [request_of Scenario.world
                 (Str.lower (Str.strip " Talk to you LATER "))])%list.
Proof.
  apply (is_goodbye_threshold Scenario.classifier Scenario.reference
           " Talk to you LATER " Scenario.world [0.6; 0.8]%float);
    first [reflexivity | discriminate].
Defined.

(** A score that is NaN makes the maximum NaN, which is not above the
    threshold: the answer is [False] whatever the other scores. *)
Lemma is_goodbye_nan_score (self : GoodbyeModel) (m : Np.ndarray)
  (text : string) (w : World) (e : list float) :
  goodbye_embeddings self = PArray m →
  Str.contains "bye" (Str.lower text) = false →
  embedding_service w (request_of w (Str.lower (Str.strip text))) = Ok e →
  length e = Np.nrows m →
  Exists (λ s, PrimFloat.is_nan s = true)
         (similarity_scores (inner_product w) e m) →
  fst (is_goodbye self text w) = Ok false.
Proof.
  intros Hm Hbye He Hlen Hnan.
  rewrite (is_goodbye_slow_eq self m text w Hm Hbye), He. simpl.
  unfold Np.matmul. rewrite decide_True by exact Hlen.
  fold (similarity_scores (inner_product w) e m).
  destruct (similarity_scores (inner_product w) e m) as [|x t];
    [by apply Exists_nil in Hnan|].
  simpl. f_equal. apply FloatOrderFacts.ltb_nan_r.
  apply NpFacts.fold_maximum_nan, Hnan.
Qed.

(** The two utterances of the scenario: a score of 0.95 against
    "see you" is a goodbye, a best score of 0.2 is not. *)
Example scenario_goodbye :
  fst (is_goodbye Scenario.classifier "talk to you later" Scenario.world)
    = Ok true.
Proof. vm_compute. reflexivity. Qed.

Example scenario_not_goodbye :
  fst (is_goodbye Scenario.classifier "what time is it" Scenario.world)
    = Ok false.
Proof. vm_compute. reflexivity. Qed.

(** A best score equal to the threshold is not a goodbye. *)
Example scenario_boundary :
  similarity_scores Np.dot [1; 0]%float
    (Np.mk_ndarray 2 2 [[0.9; 0.5]; [0; 0]]%float) = [0.9; 0.5]%float ∧
  fst (is_goodbye
         (mk_GoodbyeModel "/var/cache"
            (PArray (Np.mk_ndarray 2 2 [[0.9; 0.5]; [0; 0]]%float))
            None Scenario.phrases)
         "what time is it"
         (mk_World ∅ None (λ _, Ok [1; 0]%float) [] ∅ [] ∅ [] (λ _ _, 0%float)
                   Np.dot (λ _, true)))
    = Ok false.
Proof. split; vm_compute; reflexivity. Qed.

(** ** Column assignment *)

Module ColumnFacts.

Lemma empty_wf junk r c : Np.wf (Np.empty junk r c).
Proof.
  unfold Np.wf, Np.empty. simpl. split.
  - by rewrite length_map, length_seq.
  - apply Forall_forall. intros row Hrow.
    apply list_elem_of_In, in_map_iff in Hrow as (i & <- & _).
    by rewrite length_map, length_seq.
Qed.

Lemma nth_insert_eq (r : list float) j x d :
  j < length r → nth j (<[j:=x]> r) d = x.
Proof.
  intros H. rewrite nth_lookup, list_lookup_insert_eq by exact H. reflexivity.
Qed.

Lemma nth_insert_ne (r : list float) j k x d :
  j ≠ k → nth k (<[j:=x]> r) d = nth k r d.
Proof.
  intros H. rewrite !nth_lookup, list_lookup_insert_ne by exact H. reflexivity.
Qed.

Lemma zip_insert_column c j (rs : list (list float)) : ∀ v,
  j < c → Forall (λ r, length r = c) rs → length v = length rs →
  map (λ r, nth j r 0%float) (zip_with (λ r x, <[j:=x]> r) rs v) = v.
Proof.
  induction rs as [|r rs IH]; intros [|x v] Hj Hall Hlen;
    simpl in *; try discriminate; [reflexivity|].
  apply Forall_cons in Hall as [Hr Hall].
  rewrite nth_insert_eq by lia. f_equal. apply IH; [exact Hj | exact Hall | lia].
Qed.

Lemma zip_insert_other j k (rs : list (list float)) : ∀ v,
  j ≠ k → length v = length rs →
  map (λ r, nth k r 0%float) (zip_with (λ r x, <[j:=x]> r) rs v)
  = map (λ r, nth k r 0%float) rs.
Proof.
  induction rs as [|r rs IH]; intros [|x v] Hjk Hlen;
    simpl in *; try discriminate; [reflexivity|].
  rewrite nth_insert_ne by exact Hjk. f_equal. apply IH; [exact Hjk | lia].
Qed.

Lemma zip_insert_lengths c j (rs : list (list float)) : ∀ v,
  Forall (λ r, length r = c) rs →
  Forall (λ r, length r = c) (zip_with (λ r x, <[j:=x]> r) rs v).
Proof.
  induction rs as [|r rs IH]; intros [|x v] Hall; simpl; try constructor.
  - apply Forall_cons in Hall as [Hr _]. by rewrite length_insert.
  - apply Forall_cons in Hall as [_ Hall]. by apply IH.
Qed.

(** Assigning a vector as long as the column: the column becomes the
    vector and the other columns are kept. *)
Lemma set_column_full (m : Np.ndarray) j (v : list float) :
  Np.wf m → j < Np.ncols m → length v = Np.nrows m →
  ∃ m', Np.set_column m j v = Ok m' ∧ Np.wf m' ∧
        Np.nrows m' = Np.nrows m ∧ Np.ncols m' = Np.ncols m ∧
        Np.column m' j = v ∧
        ∀ k, k ≠ j → Np.column m' k = Np.column m k.
Proof.
  intros [Hrows Hall] Hj Hv. unfold Np.set_column.
  rewrite decide_False by lia. rewrite decide_True by exact Hv.
  eexists. split; [reflexivity|]. unfold Np.wf, Np.column. simpl.
  repeat split.
  - rewrite length_zip_with. lia.
  - by apply zip_insert_lengths.
  - apply zip_insert_column with (c := Np.ncols m); [exact Hj | exact Hall | lia].
  - intros k Hk. apply zip_insert_other; [congruence | lia].
Qed.

(** Assignment succeeds exactly on what broadcasting accepts, and
    keeps the shape. *)
Lemma set_column_placeable (m : Np.ndarray) j (v : list float) :
  j < Np.ncols m → (length v = Np.nrows m ∨ length v = 1) →
  ∃ m', Np.set_column m j v = Ok m' ∧
        Np.nrows m' = Np.nrows m ∧ Np.ncols m' = Np.ncols m.
Proof.
  intros Hj Hv. unfold Np.set_column. rewrite decide_False by lia.
  destruct (decide (length v = Np.nrows m)) as [E|N].
  - eexists. repeat split.
  - destruct Hv as [Hv|Hv]; [contradiction|].
    destruct v as [|x [|y v]]; simpl in Hv; try discriminate.
    eexists. repeat split.
Qed.

End ColumnFacts.

(** ** Building the reference array *)

Lemma create_embeddings_eq (self : GoodbyeModel) (w : World) :
  create_embeddings self w =
  create_embeddings_loop self 0 (goodbye_phrases self)
    (Np.empty (uninit w) EMBEDDING_SIZE (length (goodbye_phrases self)))
    (log_stdout "Creating embeddings..." w).
Proof. reflexivity. Qed.

(** Whatever its outcome, the loop only adds provider calls to the
    world, one per phrase it reached, each the request of that phrase. *)
Lemma create_embeddings_loop_frame (self : GoodbyeModel) (ps : list string) :
  ∀ i m w, ∃ n,
    snd (create_embeddings_loop self i ps m w)
    = log_provider_calls (map (request_of w) (take n ps)) w.
Proof.
  induction ps as [|p ps IH]; intros i m w; simpl.
  - exists 0. simpl. by rewrite log_provider_calls_nil.
  - unfold mbind, M_bind. rewrite create_embedding_eq.
    destruct (embedding_service w (request_of w p)) as [v|e].
    + unfold lift. destruct (Np.set_column m i v) as [m1|e].
      * destruct (IH (S i) m1 (log_provider_call (request_of w p) w)) as [n Hn].
        exists (S n). rewrite Hn. simpl.
        rewrite log_provider_call_calls, log_provider_calls_app. reflexivity.
      * exists 1. reflexivity.
    + exists 1. reflexivity.
Qed.

(** A provider that answers every phrase with a vector of the array's
    row count: the loop finishes, and column [i + k] is the answer for
    the [k]-th remaining phrase; the columns before [i] are kept. *)
Lemma create_embeddings_loop_ok (self : GoodbyeModel) (ps : list string) :
  ∀ i m w,
    Np.wf m → (i + length ps ≤ Np.ncols m)%nat →
    Forall (λ p, ∃ v, embedding_service w (request_of w p) = Ok v ∧
                      length v = Np.nrows m) ps →
    ∃ m',
      create_embeddings_loop self i ps m w
      = (Ok m', log_provider_calls (map (request_of w) ps) w) ∧
      Np.wf m' ∧ Np.nrows m' = Np.nrows m ∧ Np.ncols m' = Np.ncols m ∧
      (∀ k p, ps !! k = Some p →
         embedding_service w (request_of w p) = Ok (Np.column m' (i + k)%nat)) ∧
      (∀ j, j < i → Np.column m' j = Np.column m j).
Proof.
  induction ps as [|p ps IH]; intros i m w Hwf Hi Hall; simpl in *.
  - exists m. rewrite log_provider_calls_nil.
    split; [reflexivity|]. split; [exact Hwf|].
    split; [reflexivity|]. split; [reflexivity|]. split; [|reflexivity].
    intros k p Hk. discriminate.
  - apply Forall_cons in Hall as [(v & Hv & Hlen) Hall].
    destruct (ColumnFacts.set_column_full m i v Hwf ltac:(lia) Hlen)
      as (m1 & Hset & Hwf1 & Hr1 & Hc1 & Hcol & Hother).
    destruct (IH (S i) m1 (log_provider_call (request_of w p) w) Hwf1
                ltac:(lia)) as (m' & Hloop & Hwf' & Hr' & Hc' & Hcols & Hkeep).
    { rewrite Hr1. exact Hall. }
    exists m'. unfold mbind, M_bind. rewrite create_embedding_eq, Hv.
    unfold lift. rewrite Hset, Hloop.
    rewrite log_provider_call_calls, log_provider_calls_app.
    split; [reflexivity|]. split; [exact Hwf'|].
    split; [congruence|]. split; [congruence|]. split.
    + intros [|k] q Hk; simpl in Hk.
      * injection Hk as <-. rewrite Nat.add_0_r, Hkeep by lia.
        rewrite Hcol. exact Hv.
      * replace (i + S k)%nat with (S i + k)%nat by lia. apply (Hcols k q Hk).
    + intros j Hj. rewrite Hkeep by lia. apply Hother. lia.
Qed.

(** The first phrase the provider refuses ends the loop with the
    provider's exception, after one call per phrase up to that one. *)
Lemma create_embeddings_loop_abort (self : GoodbyeModel) (pre : list string) :
  ∀ p post e i m w,
    (i + length pre ≤ Np.ncols m)%nat →
    Forall (λ q, ∃ v, embedding_service w (request_of w q) = Ok v ∧
                      (length v = Np.nrows m ∨ length v = 1)) pre →
    embedding_service w (request_of w p) = Raise e →
    create_embeddings_loop self i (pre ++ p :: post) m w
    = (Raise e, log_provider_calls (map (request_of w) (pre ++ [p])) w).
Proof.
  induction pre as [|q pre IH]; intros p post e i m w Hi Hall He; simpl in *.
  - unfold mbind, M_bind. rewrite create_embedding_eq, He. reflexivity.
  - apply Forall_cons in Hall as [(v & Hv & Hlen) Hall].
    destruct (ColumnFacts.set_column_placeable m i v ltac:(lia) Hlen)
      as (m1 & Hset & Hr1 & Hc1).
    unfold mbind, M_bind. rewrite create_embedding_eq, Hv.
    unfold lift. rewrite Hset.
    rewrite (IH p post e (S i) m1 (log_provider_call (request_of w q) w));
      [| lia | rewrite Hr1; exact Hall | exact He].
    rewrite log_provider_call_calls, log_provider_calls_app. reflexivity.
Qed.

(** [create_embeddings] prints one line and adds provider calls; the
    store, its log and the files are as before, whatever the outcome. *)
Lemma create_embeddings_frame (self : GoodbyeModel) (w : World) :
  ∃ rs, snd (create_embeddings self w)
        = log_provider_calls rs (log_stdout "Creating embeddings..." w) ∧
        Forall (λ r, req_selector r = req_selector (request_of w "")) rs.
Proof.
  rewrite create_embeddings_eq.
  destruct (create_embeddings_loop_frame self (goodbye_phrases self) 0
              (Np.empty (uninit w) EMBEDDING_SIZE (length (goodbye_phrases self)))
              (log_stdout "Creating embeddings..." w)) as [n Hn].
  eexists. split; [exact Hn|].
  apply Forall_forall. intros r Hr.
  apply list_elem_of_In, in_map_iff in Hr as (p & <- & _). reflexivity.
Qed.

Lemma create_embeddings_keeps_caches (self : GoodbyeModel) (w : World) :
  files (snd (create_embeddings self w)) = files w ∧
  redis (snd (create_embeddings self w)) = redis w ∧
  redis_log (snd (create_embeddings self w)) = redis_log w.
Proof.
  destruct (create_embeddings_frame self w) as (rs & -> & _). by repeat split.
Qed.

(** A provider that answers every reference phrase with a vector of
    the embedding dimension: the build succeeds with an array of shape
    (EMBEDDING_SIZE, number of phrases) whose column [i] is the answer
    for phrase [i], whatever the fresh array held. *)
Lemma create_embeddings_ok (self : GoodbyeModel) (w : World) :
  Forall (embeds w) (goodbye_phrases self) →
  ∃ m w', create_embeddings self w = (Ok m, w') ∧
    Np.wf m ∧ Np.nrows m = EMBEDDING_SIZE ∧
    Np.ncols m = length (goodbye_phrases self) ∧
    (∀ i p, goodbye_phrases self !! i = Some p →
       embedding_service w (request_of w p) = Ok (Np.column m i)).
Proof.
  intros Hall. rewrite create_embeddings_eq.
  destruct (create_embeddings_loop_ok self (goodbye_phrases self) 0
              (Np.empty (uninit w) EMBEDDING_SIZE (length (goodbye_phrases self)))
              (log_stdout "Creating embeddings..." w))
    as (m & Hloop & Hwf & Hr & Hc & Hcols & _).
  - apply ColumnFacts.empty_wf.
  - simpl. lia.
  - exact Hall.
  - exists m. eexists. split; [exact Hloop|].
    split; [exact Hwf|]. split; [exact Hr|]. split; [exact Hc|].
    intros i p Hi. apply (Hcols i p Hi).
Qed.

(** ** The two cache flows *)

Lemma _from_path_hit (self : GoodbyeModel) (path : string) (w : World) m0 :
  files w !! path = Some m0 →
  _from_path self path w = (Ok (PArray m0), w).
Proof.
  intros H. unfold _from_path, mbind, M_bind, path_exists, gets, np_load.
  rewrite bool_decide_eq_true_2 by (rewrite H; eauto).
  rewrite H. reflexivity.
Qed.

Lemma _from_path_miss (self : GoodbyeModel) (path : string) (w : World) :
  files w !! path = None →
  _from_path self path w =
  match create_embeddings self w with
  | (Ok m, w') =>
      if can_write w' (npy_name path)
      then (Ok (PArray m), set_files (<[npy_name path:=m]> (files w')) w')
      else (Raise (OSError "No such file or directory"), w')
  | (Raise e, w') => (Raise e, w')
  end.
Proof.
  intros H. unfold _from_path, mbind, M_bind, path_exists, gets.
  rewrite bool_decide_eq_false_2 by (rewrite H; intros [? ?]; discriminate).
  destruct (create_embeddings self w) as [[m|e] w']; [|reflexivity].
  unfold np_save. destruct (can_write w' (npy_name path)); reflexivity.
Qed.

Lemma _from_redis_miss (self : GoodbyeModel) cm (key : string) (w : World) :
  config_manager self = Some cm →
  opt_array_truthy (redis w !! key) = Ok false →
  _from_redis self key w =
  match create_embeddings self (log_store_op (StoreGet key) w) with
  | (Ok m, w') =>
      (Ok (PArray m),
       log_store_op (StorePut key m) (set_redis (<[key:=m]> (redis w')) w'))
  | (Raise e, w') => (Raise e, w')
  end.
Proof.
  intros Hcm H. unfold _from_redis, mbind, M_bind, get_goodbye_embeddings, lift.
  rewrite Hcm, H.
  destruct (create_embeddings self _) as [[m|e] w']; reflexivity.
Qed.

(** Either flow writes to its backend only in the branch that follows
    a successful build: a raised exception leaves store and files as
    they were. *)
Lemma _from_path_raise_frame (self : GoodbyeModel) (path : string) (w : World) e :
  fst (_from_path self path w) = Raise e →
  files (snd (_from_path self path w)) = files w ∧
  redis (snd (_from_path self path w)) = redis w.
Proof.
  destruct (files w !! path) as [m0|] eqn:E.
  - rewrite (_from_path_hit self path w m0 E). discriminate.
  - rewrite (_from_path_miss self path w E).
    pose proof (create_embeddings_keeps_caches self w) as (Hf & Hr & _).
    destruct (create_embeddings self w) as [[m|x] w']; simpl in *; [|auto].
    destruct (can_write w' (npy_name path)); simpl; [discriminate | auto].
Qed.

Lemma _from_redis_raise_frame (self : GoodbyeModel) (key : string) (w : World) e :
  fst (_from_redis self key w) = Raise e →
  files (snd (_from_redis self key w)) = files w ∧
  redis (snd (_from_redis self key w)) = redis w ∧
  Forall (λ o, ∃ k, o = StoreGet k)
         (drop (length (redis_log w)) (redis_log (snd (_from_redis self key w)))).
Proof.
  unfold _from_redis. destruct (config_manager self) as [cm|]; [|discriminate].
  unfold mbind, M_bind, get_goodbye_embeddings, lift.
  destruct (opt_array_truthy (redis w !! key)) as [[|]|x]; simpl.
  - discriminate.
  - pose proof (create_embeddings_keeps_caches self
                  (log_store_op (StoreGet key) w)) as (Hf & Hr & Hl).
    destruct (create_embeddings self _) as [[m|x] w']; simpl in *;
      [discriminate|]. intros _. rewrite Hf, Hr, Hl.
    rewrite drop_app_length. repeat split. repeat constructor. eauto.
  - intros _. rewrite drop_app_length. repeat split. repeat constructor. eauto.
Qed.

(** The outcome of a build depends on the world through the provider,
    the environment and the credential only. *)
Lemma create_embeddings_loop_result (self : GoodbyeModel) (ps : list string) :
  ∀ i m w1 w2,
    embedding_service w1 = embedding_service w2 →
    (∀ t, request_of w1 t = request_of w2 t) →
    fst (create_embeddings_loop self i ps m w1)
    = fst (create_embeddings_loop self i ps m w2).
Proof.
  induction ps as [|p ps IH]; intros i m w1 w2 Hs Hr; simpl; [reflexivity|].
  unfold mbind, M_bind. rewrite !create_embedding_eq, Hs, Hr.
  destruct (embedding_service w2 (request_of w2 p)) as [v|e]; [|reflexivity].
  unfold lift. destruct (Np.set_column m i v) as [m1|e]; [|reflexivity].
  apply IH; [exact Hs | exact Hr].
Qed.

Lemma create_embeddings_after_get (self : GoodbyeModel) (o : store_op) (w : World) :
  fst (create_embeddings self (log_store_op o w)) = fst (create_embeddings self w).
Proof.
  rewrite !create_embeddings_eq. apply create_embeddings_loop_result; reflexivity.
Qed.

(** ** Column order *)

Lemma create_embeddings_can_write (self : GoodbyeModel) (w : World) :
  can_write (snd (create_embeddings self w)) = can_write w.
Proof.
  destruct (create_embeddings_frame self w) as (rs & -> & _). reflexivity.
Qed.

(** C6 (as amended): when the provider answers every reference phrase
    with a vector of the embedding dimension, the fresh build succeeds
    with an array of EMBEDDING_SIZE rows and one column per phrase, and
    column [i] is the provider's answer for phrase [i].  On a miss the
    store flow returns that array; the file flow returns it when
    [np.save] can write the file, and otherwise raises after the
    build, leaving the files as they were.  On a hit the file flow
    returns the stored array unchanged, so a hit that follows the build
    and save of this phrase list returns the same array. *)
Theorem column_order (self : GoodbyeModel) (w : World) :
  Forall (embeds w) (goodbye_phrases self) →
  ∃ m, fst (create_embeddings self w) = Ok m ∧
    Np.wf m ∧ Np.nrows m = EMBEDDING_SIZE ∧
    Np.ncols m = length (goodbye_phrases self) ∧
    (∀ i p, goodbye_phrases self !! i = Some p →
       embedding_service w (request_of w p) = Ok (Np.column m i)) ∧
    (∀ path, files w !! path = None →
       fst (_from_path self path w)
       = (if can_write w (npy_name path) then Ok (PArray m)
          else Raise (OSError "No such file or directory")) ∧
       (can_write w (npy_name path) = false →
        files (snd (_from_path self path w)) = files w)) ∧
    (∀ cm key, config_manager self = Some cm → redis w !! key = None →
       fst (_from_redis self key w) = Ok (PArray m)) ∧
    (∀ path m0, files w !! path = Some m0 →
       _from_path self path w = (Ok (PArray m0), w)) ∧
    (∀ path, files w !! path = None → can_write w (npy_name path) = true →
       fst (_from_path self (npy_name path) (snd (_from_path self path w)))
       = Ok (PArray m)).
Proof.
  intros Hall.
  destruct (create_embeddings_ok self w Hall) as (m & w' & Hb & Hwf & Hr & Hc & Hcols).
  pose proof (create_embeddings_can_write self w) as Hcw.
  pose proof (create_embeddings_keeps_caches self w) as (Hf & _ & _).
  exists m. rewrite Hb in *. simpl in Hcw, Hf.
  split; [reflexivity|]. split; [exact Hwf|]. split; [exact Hr|].
  split; [exact Hc|]. split; [exact Hcols|].
  split; [|split; [|split]].
  - intros path Hmiss. rewrite (_from_path_miss self path w Hmiss), Hb, Hcw.
    destruct (can_write w (npy_name path)); simpl; split; try reflexivity.
    + discriminate.
    + intros _. exact Hf.
  - intros cm key Hcm Hmiss.
    rewrite (_from_redis_miss self cm key w Hcm) by (rewrite Hmiss; reflexivity).
    pose proof (create_embeddings_after_get self (StoreGet key) w) as Hsame.
    rewrite Hb in Hsame.
    destruct (create_embeddings self (log_store_op (StoreGet key) w))
      as [[m1|e] w1]; simpl in Hsame; [|discriminate].
    injection Hsame as ->. reflexivity.
  - intros path m0 Hhit. apply _from_path_hit, Hhit.
  - intros path Hmiss Hw. rewrite (_from_path_miss self path w Hmiss), Hb, Hcw, Hw.
    simpl. erewrite _from_path_hit; [reflexivity|]. simpl. apply lookup_insert_eq.
Qed.

Lemma column_order_witness :
  Forall (embeds Scenario.world) (goodbye_phrases Scenario.fresh) ∧
  ∃ m, fst (create_embeddings Scenario.fresh Scenario.world) = Ok m ∧
    Np.wf m ∧ Np.nrows m = EMBEDDING_SIZE ∧
    Np.ncols m = length (goodbye_phrases Scenario.fresh) ∧
    (∀ i p, goodbye_phrases Scenario.fresh !! i = Some p →
       embedding_service Scenario.world (request_of Scenario.world p)
       = Ok (Np.column m i)) ∧
    (∀ path, files Scenario.world !! path = None →
       fst (_from_path Scenario.fresh path Scenario.world)
       = (if can_write Scenario.world (npy_name path) then Ok (PArray m)
          else Raise (OSError "No such file or directory")) ∧
       (can_write Scenario.world (npy_name path) = false →
        files (snd (_from_path Scenario.fresh path Scenario.world))
        = files Scenario.world)) ∧
    (∀ cm key, config_manager Scenario.fresh = Some cm →
       redis Scenario.world !! key = None →
       fst (_from_redis Scenario.fresh key Scenario.world) = Ok (PArray m)) ∧
    (∀ path m0, files Scenario.world !! path = Some m0 →
       _from_path Scenario.fresh path Scenario.world
       = (Ok (PArray m0), Scenario.world)) ∧
    (∀ path, files Scenario.world !! path = None →
       can_write Scenario.world (npy_name path) = true →
       fst (_from_path Scenario.fresh (npy_name path)
              (snd (_from_path Scenario.fresh path Scenario.world)))
       = Ok (PArray m)).
Proof.
  assert (H : Forall (embeds Scenario.world) (goodbye_phrases Scenario.fresh)).
  { repeat constructor.
    - exists (repeat 0.5%float EMBEDDING_SIZE).
      split; [reflexivity | vm_compute; reflexivity].
    - exists (repeat 0.25%float EMBEDDING_SIZE).
      split; [reflexivity | vm_compute; reflexivity]. }
  split; [exact H | exact (column_order Scenario.fresh Scenario.world H)].
Defined.

(** The same build on a file system that refuses the write: the file
    flow raises after every phrase has been embedded, and no file
    exists afterwards. *)
Example build_then_save_refused :
  is_ok (fst (create_embeddings Scenario.fresh Edge.world_read_only)) = true ∧
  fst (_from_path Scenario.fresh Scenario.cache_file Edge.world_read_only)
    = Raise (OSError "No such file or directory") ∧
  length (provider_calls
            (snd (_from_path Scenario.fresh Scenario.cache_file
                             Edge.world_read_only))) = 2 ∧
  files (snd (_from_path Scenario.fresh Scenario.cache_file Edge.world_read_only))
    = ∅.
Proof. repeat split; vm_compute; reflexivity. Qed.

(** A hit returns what the file holds.  Here the file holds an array
    of the right shape cached for another phrase list: its column 0 is
    not the provider's embedding of phrase 0. *)
Lemma stale_cache_hit_column_mismatch :
  fst (_from_path Scenario.single Scenario.cache_file
                  Scenario.world_with_stale_file)
    = Ok (PArray Scenario.stale) ∧
  Np.nrows Scenario.stale = EMBEDDING_SIZE ∧
  Np.ncols Scenario.stale = length (goodbye_phrases Scenario.single) ∧
  goodbye_phrases Scenario.single !! 0 = Some "bye" ∧
  embedding_service Scenario.world_with_stale_file
    (request_of Scenario.world_with_stale_file "bye")
    ≠ Ok (Np.column Scenario.stale 0).
Proof.
  split; [vm_compute; reflexivity|].
  split; [reflexivity|]. split; [reflexivity|]. split; [reflexivity|].
  intros H.
  apply (f_equal (λ r, match r with
                       | Ok (x :: _) => PrimFloat.ltb x 0.25%float
                       | _ => true
                       end)) in H.
  vm_compute in H. discriminate.
Qed.

(** ** A failed build *)

(** C7: when the provider refuses a reference phrase (and has answered
    the phrases before it), the build ends with the provider's
    exception; run on a miss, either flow ends with the same exception,
    the store and the files hold what they held before, and the only
    store operation issued is the initial get. *)
Theorem failed_build_writes_nothing (self : GoodbyeModel) (w : World)
  (pre : list string) (p : string) (post : list string) (e : exn) :
  goodbye_phrases self = (pre ++ p :: post)%list →
  Forall (placeable w) pre →
  embedding_service w (request_of w p) = Raise e →
  fst (create_embeddings self w) = Raise e ∧
  (∀ path, files w !! path = None →
     fst (_from_path self path w) = Raise e ∧
     files (snd (_from_path self path w)) = files w ∧
     redis (snd (_from_path self path w)) = redis w ∧
     redis_log (snd (_from_path self path w)) = redis_log w) ∧
  (∀ cm key, config_manager self = Some cm → redis w !! key = None →
     fst (_from_redis self key w) = Raise e ∧
     files (snd (_from_redis self key w)) = files w ∧
     redis (snd (_from_redis self key w)) = redis w ∧
     redis_log (snd (_from_redis self key w)) = (redis_log w ++ [StoreGet key])%list).
Proof.
  intros Hps Hpre He.
  assert (Hbuild : ∀ w0,
    embedding_service w0 = embedding_service w →
    (∀ t, request_of w0 t = request_of w t) →
    fst (create_embeddings self w0) = Raise e).
  { intros w0 Hs Hr. rewrite create_embeddings_eq, Hps.
    rewrite (create_embeddings_loop_result self (pre ++ p :: post)%list 0 _
               (log_stdout "Creating embeddings..." w0) w Hs Hr).
    rewrite create_embeddings_loop_abort with (e := e); [reflexivity | | | exact He].
    - simpl. rewrite length_app. simpl. lia.
    - exact Hpre. }
  split; [apply Hbuild; reflexivity|]. split.
  - intros path Hmiss. rewrite (_from_path_miss self path w Hmiss).
    pose proof (Hbuild w eq_refl (λ _, eq_refl)) as Hb.
    pose proof (create_embeddings_keeps_caches self w) as (Hf & Hr & Hl).
    destruct (create_embeddings self w) as [[m|x] w']; simpl in *;
      [discriminate|]. injection Hb as ->. auto.
  - intros cm key Hcm Hmiss.
    rewrite (_from_redis_miss self cm key w Hcm) by (rewrite Hmiss; reflexivity).
    pose proof (Hbuild (log_store_op (StoreGet key) w) eq_refl (λ _, eq_refl)) as Hb.
    pose proof (create_embeddings_keeps_caches self
                  (log_store_op (StoreGet key) w)) as (Hf & Hr & Hl).
    destruct (create_embeddings self _) as [[m|x] w']; simpl in *;
      [discriminate|]. injection Hb as ->. auto.
Qed.

Lemma failed_build_writes_nothing_witness :
  fst (create_embeddings Scenario.failing Scenario.world)
    = Raise (ProviderError "timeout") ∧
  (∀ path, files Scenario.world !! path = None →
     fst (_from_path Scenario.failing path Scenario.world)
       = Raise (ProviderError "timeout") ∧
     files (snd (_from_path Scenario.failing path Scenario.world))
       = files Scenario.world ∧
     redis (snd (_from_path Scenario.failing path Scenario.world))
       = redis Scenario.world ∧
     redis_log (snd (_from_path Scenario.failing path Scenario.world))
       = redis_log Scenario.world) ∧
  (∀ cm key, config_manager Scenario.failing = Some cm →
     redis Scenario.world !! key = None →
     fst (_from_redis Scenario.failing key Scenario.world)
       = Raise (ProviderError "timeout") ∧
     files (snd (_from_redis Scenario.failing key Scenario.world))
       = files Scenario.world ∧
     redis (snd (_from_redis Scenario.failing key Scenario.world))
       = redis Scenario.world ∧
     redis_log (snd (_from_redis Scenario.failing key Scenario.world))
       = (redis_log Scenario.world ++ [StoreGet key])%list).
Proof.
  apply (failed_build_writes_nothing Scenario.failing Scenario.world
           ["bye"; "see you"] "so long" [] (ProviderError "timeout")).
  - reflexivity.
  - repeat constructor.
    + exists (repeat 0.5%float EMBEDDING_SIZE).
      split; [reflexivity | left; vm_compute; reflexivity].
    + exists (repeat 0.25%float EMBEDDING_SIZE).
      split; [reflexivity | left; vm_compute; reflexivity].
  - reflexivity.
Defined.

(** ** An empty phrase list *)



(** ** Initialisation *)

Lemma load_or_create_embeddings_eq (self : GoodbyeModel) (path key : string)
  (w : World) :
  load_or_create_embeddings self path key w
  = (Ok (PCoroutine
           (if bool_decide (is_Some (config_manager self)) && Str.truthy key
            then Co_from_redis key else Co_from_path path)), w).
Proof.
  unfold load_or_create_embeddings.
  destruct (bool_decide (is_Some (config_manager self)) && Str.truthy key);
    reflexivity.
Qed.

Lemma initialize_embeddings_eq (self : GoodbyeModel) (w : World) :
  initialize_embeddings self w
  = (Ok (set_goodbye_embeddings
           (PCoroutine
              (if bool_decide (is_Some (config_manager self))
               then Co_from_redis "default"
               else Co_from_path
                      (embeddings_cache_path self ++ "/goodbye_embeddings.npy")))
           self), w).
Proof.
  unfold initialize_embeddings, mbind, M_bind.
  rewrite load_or_create_embeddings_eq. simpl.
  destruct (bool_decide (is_Some (config_manager self))); reflexivity.
Qed.

(** C3: [initialize_embeddings] never stores an array.  What it stores
    is the coroutine object [load_or_create_embeddings] returned (for
    the store flow when a configuration manager is set, for the file
    flow otherwise); the coroutine is not run, so the world is
    unchanged: no store access, no file access, no provider call. *)
Theorem initialize_embeddings_stores_coroutine (self : GoodbyeModel) (w : World) :
  ∃ c,
    initialize_embeddings self w
    = (Ok (set_goodbye_embeddings (PCoroutine c) self), w) ∧
    c = (if bool_decide (is_Some (config_manager self))
         then Co_from_redis "default"
         else Co_from_path (embeddings_cache_path self ++ "/goodbye_embeddings.npy")) ∧
    ∀ m, goodbye_embeddings (set_goodbye_embeddings (PCoroutine c) self) ≠ PArray m.
Proof.
  eexists. split; [apply initialize_embeddings_eq|].
  split; [reflexivity | discriminate].
Qed.

(** With a cached file in place, running the file flow resolves an
    array, but the attribute after [initialize_embeddings] is not it. *)
Example initialize_embeddings_with_cached_file :
  fst (await Scenario.fresh (Co_from_path Scenario.cache_file)
             Scenario.world_with_stale_file)
    = Ok (PArray Scenario.stale) ∧
  initialize_embeddings Scenario.fresh Scenario.world_with_stale_file
    = (Ok (set_goodbye_embeddings (PCoroutine (Co_from_path Scenario.cache_file))
                                  Scenario.fresh),
       Scenario.world_with_stale_file).
Proof. split; vm_compute; reflexivity. Qed.

(** C4: [load_or_create_embeddings] selects a flow but runs neither.
    Its result is the coroutine object of the selected method, and the
    world is unchanged: no get or put reaches the store and no file is
    read or written. *)
Theorem load_or_create_embeddings_runs_no_flow (self : GoodbyeModel)
  (path key : string) (w : World) :
  ∃ c,
    load_or_create_embeddings self path key w = (Ok (PCoroutine c), w) ∧
    c = (if bool_decide (is_Some (config_manager self)) && Str.truthy key
         then Co_from_redis key else Co_from_path path) ∧
    redis_log (snd (load_or_create_embeddings self path key w)) = redis_log w ∧
    files (snd (load_or_create_embeddings self path key w)) = files w.
Proof.
  eexists. rewrite load_or_create_embeddings_eq. repeat split.
Qed.

(** A configured store that holds an entry under the key: the call
    issues no get, and hands back a coroutine instead of the entry. *)
Example load_or_create_embeddings_with_store_entry :
  redis Scenario.world_with_stale_entry !! "default" = Some Scenario.stale ∧
  load_or_create_embeddings Scenario.fresh_with_store Scenario.cache_file
                            "default" Scenario.world_with_stale_entry
    = (Ok (PCoroutine (Co_from_redis "default")), Scenario.world_with_stale_entry) ∧
  redis_log Scenario.world_with_stale_entry = [].
Proof. repeat split; vm_compute; reflexivity. Qed.

(** The store flow itself, when it is run: an entry of more than one
    element has no truth value, so the test of the entry raises. *)
Lemma _from_redis_hit_raises (self : GoodbyeModel) cm (key : string) (w : World) m :
  config_manager self = Some cm →
  redis w !! key = Some m →
  1 < Np.size m →
  fst (_from_redis self key w)
  = Raise (NumpyError
      "The truth value of an array with more than one element is ambiguous").
Proof.
  intros Hcm Hm Hsize.
  unfold _from_redis, mbind, M_bind, get_goodbye_embeddings, lift.
  rewrite Hcm, Hm. simpl. unfold Np.truthy.
  destruct (Np.size m) as [|[|n]]; [lia | lia | reflexivity].
Qed.

(** C5: on a classifier whose attribute is still [None], [is_goodbye]
    fails the assertion.  After [initialize_embeddings] the assertion
    passes, but on an input whose lowercasing has no "bye" the call
    still raises: the provider's exception if the provider refuses the
    text, and otherwise the exception of the product with an operand
    that is not an array.  No boolean is returned. *)
Theorem classify_after_initialize (self : GoodbyeModel) (w : World)
  (text : string) :
  goodbye_embeddings self = PNone →
  Str.contains "bye" (Str.lower text) = false →
  is_goodbye self text w
    = (Raise (AssertionError "Embeddings not initialized"), w) ∧
  ∃ self',
    initialize_embeddings self w = (Ok self', w) ∧
    fst (is_goodbye self' text w)
    = match embedding_service w (request_of w (Str.lower (Str.strip text))) with
      | Ok _ => Raise (NumpyError
                  "matmul: Input operand 1 does not have enough dimensions")
      | Raise x => Raise x
      end ∧
    is_ok (fst (is_goodbye self' text w)) = false.
Proof.
  intros Hnone Hbye. split.
  - unfold is_goodbye. rewrite Hnone. reflexivity.
  - eexists. split; [apply initialize_embeddings_eq|].
    unfold is_goodbye. simpl. rewrite Hbye.
    unfold mbind, M_bind. rewrite create_embedding_eq.
    destruct (embedding_service w _) as [v|x]; split; reflexivity.
Qed.

Lemma classify_after_initialize_witness :
  is_goodbye Scenario.fresh "what time is it" Scenario.world
    = (Raise (AssertionError "Embeddings not initialized"), Scenario.world) ∧
  ∃ self',
    initialize_embeddings Scenario.fresh Scenario.world = (Ok self', Scenario.world) ∧
    fst (is_goodbye self' "what time is it" Scenario.world)
    = match embedding_service Scenario.world
              (request_of Scenario.world (Str.lower (Str.strip "what time is it"))) with
      | Ok _ => Raise (NumpyError
                  "matmul: Input operand 1 does not have enough dimensions")
      | Raise x => Raise x
      end ∧
    is_ok (fst (is_goodbye self' "what time is it" Scenario.world)) = false.
Proof.
  apply (classify_after_initialize Scenario.fresh Scenario.world "what time is it");
    reflexivity.
Defined.

(** Construct, initialise, classify: the provider answers the text,
    and the call ends in an exception. *)
Example construct_initialize_classify :
  ∃ self w1 self' w2,
    __init__ "/var/cache" (Some "sk-test") None Scenario.phrases Scenario.world
      = (Ok self, w1) ∧
    initialize_embeddings self w1 = (Ok self', w2) ∧
    fst (is_goodbye self' "what time is it" w2)
      = Raise (NumpyError "matmul: Input operand 1 does not have enough dimensions").
Proof. do 4 eexists. repeat split; vm_compute; reflexivity. Qed.

(** ** Provider selection *)

Module SelectionFacts.

Lemma same_selection_fields w w' :
  environ w' = environ w → provider_calls w' = provider_calls w →
  same_selection w w'.
Proof.
  intros He Hc. split; [exact He|]. exists [].
  split; [by rewrite app_nil_r | constructor].
Qed.

Lemma same_selection_refl w : same_selection w w.
Proof. by apply same_selection_fields. Qed.

Lemma same_selection_trans w1 w2 w3 :
  same_selection w1 w2 → same_selection w2 w3 → same_selection w1 w3.
Proof.
  intros (He1 & n1 & Hc1 & Hs1) (He2 & n2 & Hc2 & Hs2).
  split; [congruence|]. exists (n1 ++ n2)%list. split.
  - rewrite Hc2, Hc1. by rewrite app_assoc.
  - apply Forall_app. split; [exact Hs1|]. rewrite <- He1. exact Hs2.
Qed.

Lemma create_embedding_same_selection self text w :
  same_selection w (snd (create_embedding self text w)).
Proof.
  rewrite create_embedding_eq. split; [reflexivity|].
  exists [request_of w text]. split; [reflexivity|]. by repeat constructor.
Qed.

Lemma create_embeddings_same_selection self w :
  same_selection w (snd (create_embeddings self w)).
Proof.
  destruct (create_embeddings_frame self w) as (rs & -> & Hrs).
  split; [reflexivity|]. exists rs. split; [reflexivity | exact Hrs].
Qed.

Lemma is_goodbye_same_selection self text w :
  same_selection w (snd (is_goodbye self text w)).
Proof.
  assert (Hslow : ∀ v,
    same_selection w
      (snd ((embedding ← create_embedding self (Str.lower (Str.strip text));
             similarity_results ← np_matmul embedding v;
             top ← lift (Np.max similarity_results);
             mret (PrimFloat.ltb SIMILARITY_THRESHOLD top)) w))).
  { intros v. unfold mbind, M_bind.
    pose proof (create_embedding_same_selection self
                  (Str.lower (Str.strip text)) w) as H.
    destruct (create_embedding self _ w) as [[e|x] w']; simpl in *; [|exact H].
    unfold np_matmul, lift. simpl. destruct (py_matmul _ e v) as [scores|x]; [|exact H].
    destruct (Np.max scores) as [top|x]; exact H. }
  unfold is_goodbye.
  destruct (goodbye_embeddings self) as [|m|c];
    [apply same_selection_refl | |];
    (destruct (Str.contains "bye" (Str.lower text));
     [apply same_selection_refl | apply Hslow]).
Qed.

Lemma _from_path_same_selection self path w :
  same_selection w (snd (_from_path self path w)).
Proof.
  destruct (files w !! path) as [m0|] eqn:E.
  - rewrite (_from_path_hit self path w m0 E). apply same_selection_refl.
  - rewrite (_from_path_miss self path w E).
    pose proof (create_embeddings_same_selection self w) as H.
    destruct (create_embeddings self w) as [[m|x] w']; simpl in *; [|exact H].
    destruct (can_write w' (npy_name path)); simpl; [|exact H].
    eapply same_selection_trans; [exact H|].
    by apply same_selection_fields.
Qed.

Lemma _from_redis_same_selection self key w :
  same_selection w (snd (_from_redis self key w)).
Proof.
  unfold _from_redis.
  destruct (config_manager self) as [cm|]; [|apply same_selection_refl].
  unfold mbind, M_bind, get_goodbye_embeddings, lift.
  destruct (opt_array_truthy (redis w !! key)) as [[|]|x]; simpl;
    try (by apply same_selection_fields).
  pose proof (create_embeddings_same_selection self
                (log_store_op (StoreGet key) w)) as H.
  destruct (create_embeddings self _) as [[m|x] w']; simpl in *.
  - eapply same_selection_trans; [|by apply same_selection_fields].
    eapply same_selection_trans; [|exact H]. by apply same_selection_fields.
  - eapply same_selection_trans; [|exact H]. by apply same_selection_fields.
Qed.

Lemma run_call_same_selection c self w :
  same_selection w (snd (run_call c self w)).
Proof.
  destruct c; unfold run_call.
  - rewrite initialize_embeddings_eq. apply same_selection_refl.
  - apply is_goodbye_same_selection.
  - apply create_embedding_same_selection.
  - apply create_embeddings_same_selection.
  - rewrite load_or_create_embeddings_eq. apply same_selection_refl.
  - apply _from_redis_same_selection.
  - apply _from_path_same_selection.
Qed.

End SelectionFacts.

(** C8 (as amended): the selection is read from the environment at
    each embedding call.  Over any sequence of calls on a classifier
    the environment stays what it was, and every provider call made
    along the way carries the selection that environment gives: the
    engine named by AZURE_OPENAI_TEXT_EMBEDDING_ENGINE, or the default
    model when the variable is unset or empty. *)
Theorem provider_selection_follows_environment (cs : list call)
  (self : GoodbyeModel) (w : World) :
  environ (snd (run_calls cs self w)) = environ w ∧
  ∃ new,
    provider_calls (snd (run_calls cs self w)) = (provider_calls w ++ new)%list ∧
    Forall (λ r, req_selector r
                 = match environ w !! "AZURE_OPENAI_TEXT_EMBEDDING_ENGINE" with
                   | Some (String c s) => Engine (String c s)
                   | _ => Model "text-embedding-ada-002"
                   end) new.
Proof.
  assert (Hsel : provider_selection (environ w !! "AZURE_OPENAI_TEXT_EMBEDDING_ENGINE")
                 = match environ w !! "AZURE_OPENAI_TEXT_EMBEDDING_ENGINE" with
                   | Some (String c s) => Engine (String c s)
                   | _ => Model "text-embedding-ada-002"
                   end).
  { unfold provider_selection. destruct (environ w !! _) as [[|c s]|]; reflexivity. }
  rewrite <- Hsel. clear Hsel.
  change (same_selection w (snd (run_calls cs self w))).
  revert self w. induction cs as [|c cs IH]; intros self w; simpl.
  - apply SelectionFacts.same_selection_refl.
  - pose proof (SelectionFacts.run_call_same_selection c self w) as H.
    destruct (run_call c self w) as [self' w']. simpl in H.
    eapply SelectionFacts.same_selection_trans; [exact H | apply IH].
Qed.

(** One classifier, the same text, two calls: the host sets the
    variable in between, and the second call names the engine where the
    first named the default model. *)
Lemma selection_varies_between_calls :
  map req_selector
    (provider_calls
       (snd (create_embedding Scenario.classifier "bye"
               (host_setenv "AZURE_OPENAI_TEXT_EMBEDDING_ENGINE" "my-engine"
                  (snd (create_embedding Scenario.classifier "bye"
                                         Scenario.world))))))
  = [Model "text-embedding-ada-002"; Engine "my-engine"].
Proof. vm_compute. reflexivity. Qed.

(** The selection follows the variable: an engine when it names one,
    the default model otherwise, whatever the text. *)
Lemma create_embedding_selection (self : GoodbyeModel) (text : string) (w : World) :
  provider_calls (snd (create_embedding self text w))
    = (provider_calls w ++ [request_of w text])%list ∧
  req_input (request_of w text) = text ∧
  req_selector (request_of w text)
    = match environ w !! "AZURE_OPENAI_TEXT_EMBEDDING_ENGINE" with
      | Some (String c s) => Engine (String c s)
      | _ => Model "text-embedding-ada-002"
      end.
Proof.
  rewrite create_embedding_eq. repeat split.
  unfold request_of, provider_selection. simpl.
  destruct (environ w !! _) as [[|c s]|]; reflexivity.
Qed.

(** ** Construction *)

Lemma __init___eq path key cm ps (w : World) :
  __init__ path key cm ps w =
  let w' := set_module_api_key (py_or key (environ w !! "OPENAI_API_KEY")) w in
  if opt_truthy (py_or key (environ w !! "OPENAI_API_KEY"))
  then (Ok (mk_GoodbyeModel path PNone cm ps), w')
  else (Raise (ValueError "OPENAI_API_KEY must be set in environment or passed in"),
        w').
Proof.
  unfold __init__, mbind, M_bind, getenv, gets, modify. simpl.
  destruct (opt_truthy (py_or key (environ w !! "OPENAI_API_KEY"))); reflexivity.
Qed.



(** Two constructions in a row: the calls of the first instance are
    then sent with the credential of the second. *)
Example second_construction_changes_first_instance :
  ∃ wb,
    __init__ "/var/cache/a" (Some "sk-A") None Scenario.phrases Scenario.world
      = (Ok Scenario.instance_a, Scenario.world_after_a) ∧
    req_api_key (request_of Scenario.world_after_a "bye") = Some "sk-A" ∧
    __init__ "/var/cache/b" (Some "sk-B") None Scenario.phrases
             Scenario.world_after_a
      = (Ok Scenario.instance_b, wb) ∧
    provider_calls (snd (create_embedding Scenario.instance_a "bye" wb))
      = [mk_request "bye" (Model "text-embedding-ada-002") (Some "sk-B")].
Proof. eexists. repeat split; vm_compute; reflexivity. Qed.

(** A construction that fails for want of a credential has already
    overwritten the module attribute. *)
Example failed_construction_clears_credential :
  __init__ "/var/cache/b" None None Scenario.phrases Scenario.world_after_a
  = (Raise (ValueError "OPENAI_API_KEY must be set in environment or passed in"),
     set_module_api_key None Scenario.world_after_a) ∧
  module_api_key Scenario.world_after_a = Some "sk-A".
Proof. split; vm_compute; reflexivity. Qed.

(** ** The states a classifier reaches *)

Lemma run_call_no_array (c : call) (self : GoodbyeModel) (w : World) :
  holds_array self = false → holds_array (fst (run_call c self w)) = false.
Proof.
  intros H. destruct c; unfold run_call; try exact H.
  rewrite initialize_embeddings_eq. reflexivity.
Qed.

Lemma run_calls_no_array (cs : list call) :
  ∀ self w, holds_array self = false →
            holds_array (fst (run_calls cs self w)) = false.
Proof.
  induction cs as [|c cs IH]; intros self w H; simpl; [exact H|].
  pose proof (run_call_no_array c self w H) as H1.
  destruct (run_call c self w) as [self' w']. apply IH, H1.
Qed.

Lemma is_goodbye_no_array (self : GoodbyeModel) (text : string) (w : World) :
  holds_array self = false →
  Str.contains "bye" (Str.lower text) = false →
  is_ok (fst (is_goodbye self text w)) = false.
Proof.
  unfold holds_array, is_goodbye. intros H Hbye. rewrite Hbye.
  destruct (goodbye_embeddings self) as [|m|c]; [reflexivity | discriminate |].
  unfold mbind, M_bind. rewrite create_embedding_eq.
  destruct (embedding_service w _) as [v|x]; reflexivity.
Qed.

(** C1: a classifier made by [__init__] never comes to hold a
    reference array, whatever calls follow, [initialize_embeddings]
    among them; so on an input whose lowercasing has no "bye",
    [is_goodbye] raises in every state the classifier reaches.  It
    never returns the comparison of the best score with 0.9. *)
Theorem slow_path_never_answers (path : string) (key : option string)
  (cm : option RedisConfigManager) (ps : list string) (w : World)
  (self : GoodbyeModel) (w1 : World) (cs : list call) (text : string) :
  __init__ path key cm ps w = (Ok self, w1) →
  Str.contains "bye" (Str.lower text) = false →
  (∀ m, goodbye_embeddings (fst (run_calls cs self w1)) ≠ PArray m) ∧
  is_ok (fst (is_goodbye (fst (run_calls cs self w1)) text
                         (snd (run_calls cs self w1)))) = false.
Proof.
  rewrite __init___eq. simpl.
  destruct (opt_truthy (py_or key (environ w !! "OPENAI_API_KEY")));
    [|discriminate].
  intros [= <- <-] Hbye.
  pose proof (run_calls_no_array cs
                (mk_GoodbyeModel path PNone cm ps)
                (set_module_api_key (py_or key (environ w !! "OPENAI_API_KEY")) w)
                eq_refl) as H.
  split.
  - intros m Hm. unfold holds_array in H. rewrite Hm in H. discriminate.
  - by apply is_goodbye_no_array.
Qed.

Lemma slow_path_never_answers_witness :
  (∀ m, goodbye_embeddings
          (fst (run_calls [CallInitialize] Scenario.fresh
                          (set_module_api_key (Some "sk-test") Scenario.world)))
        ≠ PArray m) ∧
  is_ok (fst (is_goodbye
                (fst (run_calls [CallInitialize] Scenario.fresh
                                (set_module_api_key (Some "sk-test") Scenario.world)))
                "talk to you later"
                (snd (run_calls [CallInitialize] Scenario.fresh
                                (set_module_api_key (Some "sk-test")
                                                    Scenario.world)))))
  = false.
Proof.
  apply (slow_path_never_answers "/var/cache" (Some "sk-test") None
           Scenario.phrases Scenario.world Scenario.fresh
           (set_module_api_key (Some "sk-test") Scenario.world)
           [CallInitialize] "talk to you later");
    reflexivity.
Defined.

(** The utterance of the scenario that scores 0.95 against "see you":
    with the reference array in place the comparison gives [True];
    after [__init__] and [initialize_embeddings] the same call raises. *)
Example scenario_goodbye_after_initialize :
  fst (is_goodbye Scenario.classifier "talk to you later" Scenario.world)
    = Ok true ∧
  ∃ self w1 self' w2,
    __init__ "/var/cache" (Some "sk-test") None Scenario.phrases Scenario.world
      = (Ok self, w1) ∧
    initialize_embeddings self w1 = (Ok self', w2) ∧
    fst (is_goodbye self' "talk to you later" w2)
      = Raise (NumpyError "matmul: Input operand 1 does not have enough dimensions").
Proof.
  split; [vm_compute; reflexivity|].
  do 4 eexists. repeat split; vm_compute; reflexivity.
Qed.

(** * Further properties of the module *)

(** ** Case and surrounding white space *)

Module StrFacts.

Lemma char_lower_idem c : Str.char_lower (Str.char_lower c) = Str.char_lower c.
Proof.
  destruct c as [[] [] [] [] [] [] [] []]; vm_compute; reflexivity.
Qed.

Lemma isspace_char_lower c : Str.isspace (Str.char_lower c) = Str.isspace c.
Proof.
  destruct c as [[] [] [] [] [] [] [] []]; vm_compute; reflexivity.
Qed.

Lemma lower_idem s : Str.lower (Str.lower s) = Str.lower s.
Proof.
  induction s as [|c t IH]; simpl; [reflexivity|].
  by rewrite char_lower_idem, IH.
Qed.

Lemma lstrip_lower s : Str.lstrip (Str.lower s) = Str.lower (Str.lstrip s).
Proof.
  induction s as [|c t IH]; simpl; [reflexivity|].
  rewrite isspace_char_lower. destruct (Str.isspace c); [exact IH | reflexivity].
Qed.

Lemma rstrip_lower s : Str.rstrip (Str.lower s) = Str.lower (Str.rstrip s).
Proof.
  induction s as [|c t IH]; simpl; [reflexivity|].
  rewrite IH, isspace_char_lower.
  destruct (Str.rstrip t) as [|d t']; simpl; [|reflexivity].
  destruct (Str.isspace c); reflexivity.
Qed.

Lemma strip_lower s : Str.strip (Str.lower s) = Str.lower (Str.strip s).
Proof. unfold Str.strip. by rewrite lstrip_lower, rstrip_lower. Qed.

Lemma rstrip_idem s : Str.rstrip (Str.rstrip s) = Str.rstrip s.
Proof.
  induction s as [|c t IH]; simpl; [reflexivity|].
  destruct (Str.rstrip t) as [|d t'] eqn:E.
  - destruct (Str.isspace c) eqn:Hc; simpl; [reflexivity|]. by rewrite Hc.
  - simpl in *. by rewrite IH.
Qed.

(** A string that does not begin with white space. *)
Lemma lstrip_head s :
  match Str.lstrip s with
  | EmptyString => True
  | String c _ => Str.isspace c = false
  end.
Proof.
  induction s as [|c t IH]; simpl; [exact I|].
  destruct (Str.isspace c) eqn:Hc; [exact IH | exact Hc].
Qed.

Lemma lstrip_rstrip_lstrip s :
  Str.lstrip (Str.rstrip (Str.lstrip s)) = Str.rstrip (Str.lstrip s).
Proof.
  pose proof (lstrip_head s) as H.
  destruct (Str.lstrip s) as [|c t]; simpl; [reflexivity|].
  destruct (Str.rstrip t) as [|d t']; simpl; rewrite H; simpl; by rewrite ?H.
Qed.

Lemma strip_idem s : Str.strip (Str.strip s) = Str.strip s.
Proof.
  unfold Str.strip. by rewrite lstrip_rstrip_lstrip, rstrip_idem.
Qed.

Lemma prefix_nil_r n : String.prefix n "" = match n with "" => true | _ => false end.
Proof. destruct n; reflexivity. Qed.

(** White space in front of a string does not begin an occurrence of a
    needle that has none. *)
Lemma prefix_space n c t :
  nospace n = true → Str.isspace c = true →
  String.prefix n (String c t) = match n with "" => true | _ => false end.
Proof.
  intros Hn Hc. destruct n as [|a n']; [reflexivity|]. simpl in *.
  destruct (Ascii.ascii_dec a c) as [->|]; [|reflexivity].
  rewrite Hc in Hn. discriminate.
Qed.

Lemma contains_nil n : Str.contains n "" = match n with "" => true | _ => false end.
Proof. destruct n; reflexivity. Qed.

Lemma contains_empty_needle s : Str.contains "" s = true.
Proof. destruct s; reflexivity. Qed.

Lemma contains_lstrip n s :
  nospace n = true → Str.contains n (Str.lstrip s) = Str.contains n s.
Proof.
  intros Hn. destruct n as [|a n']; [by rewrite !contains_empty_needle|].
  induction s as [|c t IH]; [reflexivity|].
  change (Str.lstrip (String c t))
    with (if Str.isspace c then Str.lstrip t else String c t).
  destruct (Str.isspace c) eqn:Hc; [|reflexivity].
  rewrite IH.
  change (Str.contains (String a n') (String c t))
    with (String.prefix (String a n') (String c t) || Str.contains (String a n') t).
  by rewrite (prefix_space (String a n') c t Hn Hc).
Qed.

Lemma prefix_rstrip s : ∀ n,
  nospace n = true → String.prefix n (Str.rstrip s) = String.prefix n s.
Proof.
  induction s as [|c t IH]; intros n Hn; [reflexivity|].
  destruct n as [|a n']; [destruct (Str.rstrip (String c t)); reflexivity|].
  simpl in Hn. apply andb_true_iff in Hn as [Ha Hn'].
  apply negb_true_iff in Ha.
  specialize (IH n' Hn').
  simpl. destruct (Str.rstrip t) as [|d t'] eqn:E.
  - destruct (Str.isspace c) eqn:Hc.
    + simpl. destruct (Ascii.ascii_dec a c) as [->|]; [congruence | reflexivity].
    + simpl. destruct (Ascii.ascii_dec a c); [exact IH | reflexivity].
  - simpl. destruct (Ascii.ascii_dec a c); [exact IH | reflexivity].
Qed.

Lemma contains_rstrip n s :
  nospace n = true → Str.contains n (Str.rstrip s) = Str.contains n s.
Proof.
  intros Hn. induction s as [|c t IH]; [reflexivity|].
  change (Str.contains n (String c t))
    with (String.prefix n (String c t) || Str.contains n t).
  rewrite <- IH, <- (prefix_rstrip (String c t) n Hn).
  simpl. destruct (Str.rstrip t) as [|d t'] eqn:E.
  - destruct (Str.isspace c).
    + rewrite contains_nil, prefix_nil_r. by destruct n.
    + reflexivity.
  - reflexivity.
Qed.

Lemma contains_strip n s :
  nospace n = true → Str.contains n (Str.strip s) = Str.contains n s.
Proof.
  intros Hn. unfold Str.strip. by rewrite contains_rstrip, contains_lstrip.
Qed.

End StrFacts.

(** X1: [is_goodbye] ignores white space around its input: the
    stripped text gets the same answer, the same exception and the
    same provider call as the text itself.  (The fast path looks at the
    unstripped text, the slow path at the stripped one; "bye" holds no
    white space, so the two agree.) *)
Theorem is_goodbye_ignores_surrounding_space (self : GoodbyeModel)
  (text : string) (w : World) :
  is_goodbye self (Str.strip text) w = is_goodbye self text w.
Proof.
  unfold is_goodbye. rewrite StrFacts.strip_idem.
  rewrite <- (StrFacts.strip_lower text).
  rewrite StrFacts.contains_strip by reflexivity.
  rewrite (StrFacts.strip_lower text). reflexivity.
Qed.

(** X2: [is_goodbye] ignores case: the lowercased text gets the same
    answer, the same exception and the same provider call as the text
    itself. *)
Theorem is_goodbye_ignores_case (self : GoodbyeModel) (text : string)
  (w : World) :
  is_goodbye self (Str.lower text) w = is_goodbye self text w.
Proof.
  unfold is_goodbye.
  rewrite StrFacts.lower_idem, <- StrFacts.strip_lower, StrFacts.lower_idem.
  rewrite StrFacts.strip_lower. reflexivity.
Qed.

(** ** When the slow path answers *)

(** X3: with a reference array in the attribute and no "bye" in the
    lowercased input, [is_goodbye] returns a boolean exactly when the
    provider answers the normalised text with a vector as long as the
    array has rows and the array has at least one column; in every
    other case it raises. *)
Theorem is_goodbye_answers_iff (self : GoodbyeModel) (m : Np.ndarray)
  (text : string) (w : World) :
  goodbye_embeddings self = PArray m →
  Str.contains "bye" (Str.lower text) = false →
  is_ok (fst (is_goodbye self text w)) = true ↔
  ∃ e, embedding_service w (request_of w (Str.lower (Str.strip text))) = Ok e ∧
       length e = Np.nrows m ∧ Np.ncols m ≠ 0.
Proof.
  intros Hm Hbye. rewrite (is_goodbye_slow_eq self m text w Hm Hbye). simpl.
  destruct (embedding_service w _) as [e|x]; simpl.
  - unfold Np.matmul. destruct (decide (length e = Np.nrows m)) as [E|N]; simpl.
    + destruct (Np.ncols m) as [|n] eqn:Hc; simpl.
      * split; [discriminate|]. intros (? & _ & _ & H). congruence.
      * split; [|reflexivity]. intros _. exists e. repeat split; congruence.
    + split; [discriminate|]. intros (e' & He & Hl & _). congruence.
  - split; [discriminate|]. intros (? & H & _). discriminate.
Qed.

Lemma is_goodbye_answers_iff_witness :
  is_ok (fst (is_goodbye Scenario.classifier "what time is it" Scenario.world))
    = true ↔
  ∃ e, embedding_service Scenario.world
         (request_of Scenario.world (Str.lower (Str.strip "what time is it")))
       = Ok e ∧
       length e = Np.nrows Scenario.reference ∧ Np.ncols Scenario.reference ≠ 0.
Proof.
  apply (is_goodbye_answers_iff Scenario.classifier Scenario.reference
           "what time is it" Scenario.world); reflexivity.
Defined.

(** X4: whatever the attribute holds and whatever the outcome,
    [is_goodbye] writes nothing: the files, the store and its log, the
    printed lines, the environment and the credential are as before,
    and the provider has been called at most once, with the stripped
    and lowercased text. *)
Theorem is_goodbye_writes_nothing (self : GoodbyeModel) (text : string)
  (w : World) :
  files (snd (is_goodbye self text w)) = files w ∧
  redis (snd (is_goodbye self text w)) = redis w ∧
  redis_log (snd (is_goodbye self text w)) = redis_log w ∧
  stdout (snd (is_goodbye self text w)) = stdout w ∧
  environ (snd (is_goodbye self text w)) = environ w ∧
  module_api_key (snd (is_goodbye self text w)) = module_api_key w ∧
  (provider_calls (snd (is_goodbye self text w)) = provider_calls w ∨
   provider_calls (snd (is_goodbye self text w))
   = (provider_calls w ++ [request_of w (Str.lower (Str.strip text))])%list).
Proof.
  assert (Hslow : ∀ v,
    snd ((embedding ← create_embedding self (Str.lower (Str.strip text));
          similarity_results ← np_matmul embedding v;
          top ← lift (Np.max similarity_results);
          mret (PrimFloat.ltb SIMILARITY_THRESHOLD top)) w)
    = log_provider_call (request_of w (Str.lower (Str.strip text))) w).
  { intros v. unfold mbind, M_bind. rewrite create_embedding_eq.
    destruct (embedding_service w _) as [e|x]; [|reflexivity].
    unfold np_matmul, lift. simpl. destruct (py_matmul _ e v) as [scores|x]; [|reflexivity].
    destruct (Np.max scores) as [top|x]; reflexivity. }
  unfold is_goodbye.
  destruct (goodbye_embeddings self) as [|m|c];
    [by repeat split; try left | |];
    (destruct (Str.contains "bye" (Str.lower text));
     [by repeat split; try left | rewrite Hslow; by repeat split; try right]).
Qed.

(** ** Construction without a credential *)

(** X5: when no credential is passed (or an empty one) and the
    environment has none (or an empty one), [__init__] raises
    [ValueError], and it has by then overwritten [openai.api_key] with
    what the environment gave: a credential set by an earlier
    construction is gone. *)
Theorem construction_without_credential (path : string) (key : option string)
  (cm : option RedisConfigManager) (ps : list string) (w : World) :
  opt_truthy key = false →
  opt_truthy (environ w !! "OPENAI_API_KEY") = false →
  fst (__init__ path key cm ps w)
    = Raise (ValueError "OPENAI_API_KEY must be set in environment or passed in") ∧
  module_api_key (snd (__init__ path key cm ps w))
    = environ w !! "OPENAI_API_KEY" ∧
  opt_truthy (module_api_key (snd (__init__ path key cm ps w))) = false.
Proof.
  intros Hk He. rewrite __init___eq. unfold py_or. rewrite Hk. simpl.
  rewrite He. simpl. repeat split. exact He.
Qed.

Lemma construction_without_credential_witness :
  module_api_key Scenario.world_after_a = Some "sk-A" ∧
  fst (__init__ "/var/cache/b" (Some "") None Scenario.phrases Scenario.world_after_a)
    = Raise (ValueError "OPENAI_API_KEY must be set in environment or passed in") ∧
  module_api_key
    (snd (__init__ "/var/cache/b" (Some "") None Scenario.phrases
                   Scenario.world_after_a))
    = environ Scenario.world_after_a !! "OPENAI_API_KEY" ∧
  opt_truthy
    (module_api_key
       (snd (__init__ "/var/cache/b" (Some "") None Scenario.phrases
                      Scenario.world_after_a))) = false.
Proof.
  split; [reflexivity|].
  apply (construction_without_credential "/var/cache/b" (Some "") None
           Scenario.phrases Scenario.world_after_a); reflexivity.
Defined.

(** ** The manual test entry point *)

Lemma main_loop_fresh (model : GoodbyeModel) (stdin : list string) (w : World) :
  goodbye_embeddings model = PNone →
  main_loop model stdin w
  = (match stdin with
     | [] => MainEOFError
     | _ => MainRaise (AssertionError "Embeddings not initialized")
     end, log_stdout "Text: " w).
Proof.
  intros H. destruct stdin as [|line rest]; simpl; [reflexivity|].
  unfold is_goodbye. rewrite H. reflexivity.
Qed.

(** X6: [main] never classifies a line.  It constructs the classifier
    and goes to the loop without [initialize_embeddings], so the first
    line read fails the assertion of [is_goodbye]; an empty standard
    input ends in [EOFError], and a missing credential in the
    [ValueError] of the constructor.  In no case is the provider
    called, and nothing but the prompt is printed. *)
Theorem main_never_classifies (default_path : string) (stdin : list string)
  (w : World) :
  fst (main default_path stdin w)
  = (if opt_truthy (environ w !! "OPENAI_API_KEY") then
       match stdin with
       | [] => MainEOFError
       | _ => MainRaise (AssertionError "Embeddings not initialized")
       end
     else
       MainRaise (ValueError "OPENAI_API_KEY must be set in environment or passed in")) ∧
  provider_calls (snd (main default_path stdin w)) = provider_calls w ∧
  stdout (snd (main default_path stdin w))
  = (if opt_truthy (environ w !! "OPENAI_API_KEY")
     then stdout w ++ ["Text: "] else stdout w)%list ∧
  files (snd (main default_path stdin w)) = files w ∧
  redis (snd (main default_path stdin w)) = redis w.
Proof.
  unfold main. rewrite __init___eq. unfold py_or. simpl.
  destruct (opt_truthy (environ w !! "OPENAI_API_KEY")).
  - rewrite main_loop_fresh by reflexivity. by repeat split.
  - by repeat split.
Qed.

(** ** More on the build *)

Module BuildFacts.

Lemma set_column_shape (m m' : Np.ndarray) j (v : list float) :
  Np.set_column m j v = Ok m' →
  Np.nrows m' = Np.nrows m ∧ Np.ncols m' = Np.ncols m.
Proof.
  unfold Np.set_column.
  destruct (decide (Np.ncols m ≤ j)%nat); [discriminate|].
  destruct (decide (length v = Np.nrows m)).
  - intros [= <-]. by split.
  - destruct v as [|x [|y v]]; try discriminate. intros [= <-]. by split.
Qed.

Lemma loop_shape (self : GoodbyeModel) (ps : list string) :
  ∀ i m w m',
    fst (create_embeddings_loop self i ps m w) = Ok m' →
    Np.nrows m' = Np.nrows m ∧ Np.ncols m' = Np.ncols m.
Proof.
  induction ps as [|p ps IH]; intros i m w m'; simpl.
  - intros [= <-]. by split.
  - unfold mbind, M_bind. rewrite create_embedding_eq.
    destruct (embedding_service w (request_of w p)) as [v|e]; [|discriminate].
    unfold lift. destruct (Np.set_column m i v) as [m1|e] eqn:Hset; [|discriminate].
    intros H. apply IH in H as [Hr Hc].
    apply set_column_shape in Hset as [Hr1 Hc1]. split; congruence.
Qed.

(** The calls of the loop: the requests of a prefix of the phrases, in
    their order; of all the phrases when the loop succeeds. *)
Lemma loop_trace (self : GoodbyeModel) (ps : list string) :
  ∀ i m w, ∃ n,
    snd (create_embeddings_loop self i ps m w)
    = log_provider_calls (map (request_of w) (take n ps)) w ∧
    (is_ok (fst (create_embeddings_loop self i ps m w)) = true →
     take n ps = ps).
Proof.
  induction ps as [|p ps IH]; intros i m w; simpl.
  - exists 0. simpl. by rewrite log_provider_calls_nil.
  - unfold mbind, M_bind. rewrite create_embedding_eq.
    destruct (embedding_service w (request_of w p)) as [v|e].
    + unfold lift. destruct (Np.set_column m i v) as [m1|e].
      * destruct (IH (S i) m1 (log_provider_call (request_of w p) w))
          as (n & Hn & Hall).
        exists (S n). rewrite Hn. simpl.
        rewrite log_provider_call_calls, log_provider_calls_app.
        split; [reflexivity|]. intros Hok. by rewrite (Hall Hok).
      * exists 1. split; [reflexivity | discriminate].
    + exists 1. split; [reflexivity | discriminate].
Qed.

(** An answer that is neither as long as the column nor of length one
    ends the loop in the exception of the assignment. *)
Lemma loop_abort_shape (self : GoodbyeModel) (pre : list string) :
  ∀ p post v i m w,
    (i + length pre < Np.ncols m)%nat →
    Forall (λ q, ∃ u, embedding_service w (request_of w q) = Ok u ∧
                      (length u = Np.nrows m ∨ length u = 1)) pre →
    embedding_service w (request_of w p) = Ok v →
    length v ≠ Np.nrows m → length v ≠ 1 →
    fst (create_embeddings_loop self i (pre ++ p :: post) m w)
    = Raise (NumpyError "could not broadcast input array").
Proof.
  induction pre as [|q pre IH]; intros p post v i m w Hi Hall Hv Hn H1;
    simpl in *.
  - unfold mbind, M_bind. rewrite create_embedding_eq, Hv.
    unfold lift, Np.set_column.
    rewrite decide_False by lia. rewrite decide_False by exact Hn.
    destruct v as [|x [|y v]]; simpl in *; [reflexivity | lia | reflexivity].
  - apply Forall_cons in Hall as [(u & Hu & Hlen) Hall].
    destruct (ColumnFacts.set_column_placeable m i u ltac:(lia) Hlen)
      as (m1 & Hset & Hr1 & Hc1).
    unfold mbind, M_bind. rewrite create_embedding_eq, Hu.
    unfold lift. rewrite Hset.
    apply (IH p post v (S i) m1 (log_provider_call (request_of w q) w));
      [lia | rewrite Hr1; exact Hall | exact Hv | congruence | exact H1].
Qed.

Lemma map_insert_column j x (rs : list (list float)) c :
  j < c → Forall (λ r, length r = c) rs →
  map (λ r, nth j r 0%float) (map (λ r, <[j:=x]> r) rs) = repeat x (length rs).
Proof.
  intros Hj Hall. induction Hall as [|r rs Hr _ IH]; simpl; [reflexivity|].
  rewrite ColumnFacts.nth_insert_eq by lia. by rewrite IH.
Qed.

Lemma map_insert_other j k x (rs : list (list float)) :
  j ≠ k →
  map (λ r, nth k r 0%float) (map (λ r, <[j:=x]> r) rs)
  = map (λ r, nth k r 0%float) rs.
Proof.
  intros Hjk. induction rs as [|r rs IH]; simpl; [reflexivity|].
  rewrite ColumnFacts.nth_insert_ne by exact Hjk. by rewrite IH.
Qed.

(** Assigning what broadcasting accepts: a vector as long as the
    column becomes the column, a single number fills it. *)
Lemma set_column_broadcast (m : Np.ndarray) j (v : list float) :
  Np.wf m → j < Np.ncols m → (length v = Np.nrows m ∨ length v = 1) →
  ∃ m', Np.set_column m j v = Ok m' ∧ Np.wf m' ∧
        Np.nrows m' = Np.nrows m ∧ Np.ncols m' = Np.ncols m ∧
        (length v = Np.nrows m → Np.column m' j = v) ∧
        (∀ x, v = [x] → Np.column m' j = repeat x (Np.nrows m)) ∧
        ∀ k, k ≠ j → Np.column m' k = Np.column m k.
Proof.
  intros Hwf Hj Hv.
  destruct (decide (length v = Np.nrows m)) as [E|N].
  - destruct (ColumnFacts.set_column_full m j v Hwf Hj E)
      as (m' & Hset & Hwf' & Hr & Hc & Hcol & Hother).
    exists m'. split; [exact Hset|]. split; [exact Hwf'|].
    split; [exact Hr|]. split; [exact Hc|]. split; [by intros _|].
    split; [|exact Hother].
    intros x ->. rewrite Hcol. simpl in E. by rewrite <- E.
  - destruct Hv as [Hv|Hv]; [contradiction|].
    destruct v as [|x [|y v]]; simpl in Hv; try discriminate.
    destruct Hwf as [Hrows Hall].
    unfold Np.set_column. rewrite decide_False by lia.
    rewrite decide_False by exact N.
    eexists. split; [reflexivity|]. unfold Np.wf, Np.column. simpl.
    split; [split|].
    + by rewrite length_map.
    + apply Forall_forall. intros r Hr.
      apply list_elem_of_In, in_map_iff in Hr as (r0 & <- & Hr0).
      rewrite length_insert.
      rewrite Forall_forall in Hall. apply Hall, list_elem_of_In, Hr0.
    + split; [reflexivity|]. split; [reflexivity|].
      split; [intros E; contradiction|]. split.
      * intros x' [= <-]. rewrite <- Hrows.
        by apply map_insert_column with (c := Np.ncols m).
      * intros k Hk. apply map_insert_other. congruence.
Qed.

(** The loop over answers that broadcasting accepts. *)
Lemma loop_placeable (self : GoodbyeModel) (ps : list string) :
  ∀ i m w,
    Np.wf m → (i + length ps ≤ Np.ncols m)%nat →
    Forall (λ p, ∃ v, embedding_service w (request_of w p) = Ok v ∧
                      (length v = Np.nrows m ∨ length v = 1)) ps →
    ∃ m',
      fst (create_embeddings_loop self i ps m w) = Ok m' ∧
      Np.wf m' ∧ Np.nrows m' = Np.nrows m ∧ Np.ncols m' = Np.ncols m ∧
      (∀ k p v, ps !! k = Some p →
         embedding_service w (request_of w p) = Ok v →
         (length v = Np.nrows m → Np.column m' (i + k)%nat = v) ∧
         (∀ x, v = [x] → Np.column m' (i + k)%nat = repeat x (Np.nrows m))) ∧
      (∀ j, j < i → Np.column m' j = Np.column m j).
Proof.
  induction ps as [|p ps IH]; intros i m w Hwf Hi Hall; simpl in *.
  - exists m. split; [reflexivity|]. split; [exact Hwf|].
    split; [reflexivity|]. split; [reflexivity|]. split; [|reflexivity].
    intros k p v Hk. discriminate.
  - apply Forall_cons in Hall as [(v & Hv & Hlen) Hall].
    destruct (set_column_broadcast m i v Hwf ltac:(lia) Hlen)
      as (m1 & Hset & Hwf1 & Hr1 & Hc1 & Hfull & Hone & Hother).
    destruct (IH (S i) m1 (log_provider_call (request_of w p) w) Hwf1
                ltac:(lia)) as (m' & Hloop & Hwf' & Hr' & Hc' & Hcols & Hkeep).
    { rewrite Hr1. exact Hall. }
    exists m'. unfold mbind, M_bind. rewrite create_embedding_eq, Hv.
    unfold lift. rewrite Hset, Hloop.
    split; [reflexivity|]. split; [exact Hwf'|].
    split; [congruence|]. split; [congruence|]. split.
    + intros [|k] q u Hk Hu; simpl in Hk.
      * injection Hk as <-. rewrite Hv in Hu. injection Hu as <-.
        rewrite Nat.add_0_r, Hkeep by lia. split; [exact Hfull | exact Hone].
      * replace (i + S k)%nat with (S i + k)%nat by lia.
        rewrite <- Hr1. apply (Hcols k q u Hk Hu).
    + intros j Hj. rewrite Hkeep by lia. apply Hother. lia.
Qed.

End BuildFacts.

(** ** What fresh cells hold does not reach the result *)

Module FreshFacts.

Lemma row_agree_step (r1 r2 : list float) i x :
  length r1 = length r2 → take i r1 = take i r2 → i < length r1 →
  take (S i) (<[i:=x]> r1) = take (S i) (<[i:=x]> r2).
Proof.
  intros Hlen Htake Hi.
  rewrite (take_S_r (<[i:=x]> r1) i x) by (apply list_lookup_insert_eq; lia).
  rewrite (take_S_r (<[i:=x]> r2) i x) by (apply list_lookup_insert_eq; lia).
  rewrite !take_insert_ge by lia. by rewrite Htake.
Qed.

Lemma agree_zip_insert c i (rs1 rs2 : list (list float)) :
  i < c →
  Forall2 (λ r1 r2, length r1 = length r2 ∧ take i r1 = take i r2) rs1 rs2 →
  Forall (λ r, length r = c) rs1 →
  ∀ v,
    Forall2 (λ r1 r2, length r1 = length r2 ∧ take (S i) r1 = take (S i) r2)
            (zip_with (λ r x, <[i:=x]> r) rs1 v)
            (zip_with (λ r x, <[i:=x]> r) rs2 v).
Proof.
  intros Hi H. induction H as [|r1 r2 rs1 rs2 [Hl Ht] _ IH]; intros Hall v.
  - constructor.
  - apply Forall_cons in Hall as [Hr Hall].
    destruct v as [|x v]; simpl; constructor.
    + rewrite !length_insert. split; [exact Hl|].
      apply row_agree_step; [exact Hl | exact Ht | lia].
    + apply IH, Hall.
Qed.

Lemma agree_map_insert c i x (rs1 rs2 : list (list float)) :
  i < c →
  Forall2 (λ r1 r2, length r1 = length r2 ∧ take i r1 = take i r2) rs1 rs2 →
  Forall (λ r, length r = c) rs1 →
  Forall2 (λ r1 r2, length r1 = length r2 ∧ take (S i) r1 = take (S i) r2)
          (map (λ r, <[i:=x]> r) rs1) (map (λ r, <[i:=x]> r) rs2).
Proof.
  intros Hi H. induction H as [|r1 r2 rs1 rs2 [Hl Ht] _ IH]; intros Hall; simpl.
  - constructor.
  - apply Forall_cons in Hall as [Hr Hall]. constructor.
    + rewrite !length_insert. split; [exact Hl|].
      apply row_agree_step; [exact Hl | exact Ht | lia].
    + apply IH, Hall.
Qed.

Lemma map_insert_lengths c i x (rs : list (list float)) :
  Forall (λ r, length r = c) rs →
  Forall (λ r, length r = c) (map (λ r, <[i:=x]> r) rs).
Proof.
  intros H. induction H; simpl; constructor; [by rewrite length_insert | done].
Qed.

Lemma agree_all c (rs1 rs2 : list (list float)) :
  Forall2 (λ r1 r2, length r1 = length r2 ∧ take c r1 = take c r2) rs1 rs2 →
  Forall (λ r, length r = c) rs1 →
  rs1 = rs2.
Proof.
  intros H. induction H as [|r1 r2 rs1 rs2 [Hl Ht] _ IH]; intros Hall;
    [reflexivity|].
  apply Forall_cons in Hall as [Hr Hall]. f_equal; [|apply IH, Hall].
  rewrite <- (take_ge r1 c), <- (take_ge r2 c) by lia. exact Ht.
Qed.

(** Two arrays of one shape that agree before column [i], filled from
    column [i] to the last one by the same provider: the outcomes are
    the same. *)
Lemma loop_agree (self : GoodbyeModel) (ps : list string) :
  ∀ i m1 m2 w1 w2,
    agree_before i m1 m2 →
    Forall (λ r, length r = Np.ncols m1) (Np.rows m1) →
    (i + length ps = Np.ncols m1)%nat →
    embedding_service w1 = embedding_service w2 →
    (∀ t, request_of w1 t = request_of w2 t) →
    fst (create_embeddings_loop self i ps m1 w1)
    = fst (create_embeddings_loop self i ps m2 w2).
Proof.
  induction ps as [|p ps IH]; intros i m1 m2 w1 w2 (Hr & Hc & Hrows) Hall Hi Hs Hq;
    simpl in *.
  - f_equal. destruct m1 as [n1 c1 rs1], m2 as [n2 c2 rs2]. simpl in *.
    subst n2 c2. f_equal. apply agree_all with (c := c1); [|exact Hall].
    replace c1 with i by lia. exact Hrows.
  - unfold mbind, M_bind. rewrite !create_embedding_eq, Hs, Hq.
    destruct (embedding_service w2 (request_of w2 p)) as [v|e]; [|reflexivity].
    unfold lift, Np.set_column. rewrite <- Hc, <- Hr.
    repeat match goal with
           | |- context [@decide (?a <= i)%nat ?d] =>
               destruct (@decide (a <= i)%nat d); [lia|]
           end.
    destruct (decide (length v = Np.nrows m1)).
    + apply IH; simpl; try assumption; try lia.
      * split; [reflexivity|]. split; [reflexivity|].
        apply agree_zip_insert with (c := Np.ncols m1); [lia | exact Hrows | exact Hall].
      * by apply ColumnFacts.zip_insert_lengths.
    + destruct v as [|x [|y v]]; try reflexivity.
      apply IH; simpl; try assumption; try lia.
      * split; [reflexivity|]. split; [reflexivity|].
        apply agree_map_insert with (c := Np.ncols m1); [lia | exact Hrows | exact Hall].
      * by apply map_insert_lengths.
Qed.

Lemma empty_agree junk1 junk2 r c :
  agree_before 0 (Np.empty junk1 r c) (Np.empty junk2 r c).
Proof.
  split; [reflexivity|]. split; [reflexivity|]. simpl.
  induction (seq 0 r) as [|i l IH]; simpl; constructor; [|exact IH].
  split; [by rewrite !length_map | reflexivity].
Qed.

End FreshFacts.

(** X7: the values [np.empty] leaves in the fresh array never reach
    the outcome of a build.  In two worlds that differ at most in those
    values, [create_embeddings] gives the same array or the same
    exception, and so does the file flow. *)
Theorem create_embeddings_ignores_fresh_cells (self : GoodbyeModel)
  (w1 w2 : World) :
  same_but_uninit w1 w2 →
  fst (create_embeddings self w1) = fst (create_embeddings self w2) ∧
  ∀ path, fst (_from_path self path w1) = fst (_from_path self path w2).
Proof.
  intros (He & Hk & Hs & _ & _ & _ & Hf & _ & _ & Hcw).
  assert (Hb : fst (create_embeddings self w1) = fst (create_embeddings self w2)).
  { rewrite !create_embeddings_eq. apply FreshFacts.loop_agree.
    - apply FreshFacts.empty_agree.
    - apply ColumnFacts.empty_wf.
    - reflexivity.
    - exact Hs.
    - intros t. unfold request_of. simpl. by rewrite He, Hk. }
  split; [exact Hb|]. intros path.
  destruct (files w1 !! path) as [m0|] eqn:E.
  - rewrite (_from_path_hit self path w1 m0 E).
    rewrite (_from_path_hit self path w2 m0) by (by rewrite <- Hf). reflexivity.
  - rewrite (_from_path_miss self path w1 E).
    rewrite (_from_path_miss self path w2) by (by rewrite <- Hf).
    pose proof (create_embeddings_can_write self w1) as Hw1.
    pose proof (create_embeddings_can_write self w2) as Hw2.
    destruct (create_embeddings self w1) as [[m1|e1] w1'],
             (create_embeddings self w2) as [[m2|e2] w2']; simpl in *;
      try congruence.
    rewrite Hw1, Hw2, Hcw.
    destruct (can_write w2 (npy_name path)); simpl; congruence.
Qed.

Lemma create_embeddings_ignores_fresh_cells_witness :
  same_but_uninit Scenario.world Edge.world_other_junk ∧
  fst (create_embeddings Scenario.fresh Scenario.world)
    = fst (create_embeddings Scenario.fresh Edge.world_other_junk) ∧
  ∀ path, fst (_from_path Scenario.fresh path Scenario.world)
          = fst (_from_path Scenario.fresh path Edge.world_other_junk).
Proof.
  assert (H : same_but_uninit Scenario.world Edge.world_other_junk)
    by (repeat split; reflexivity).
  split; [exact H|].
  exact (create_embeddings_ignores_fresh_cells Scenario.fresh Scenario.world
           Edge.world_other_junk H).
Defined.

(** ** The calls and the failures of a build *)

Module OutcomeFacts.

Lemma set_column_ok_inv (m m' : Np.ndarray) j (v : list float) :
  Np.set_column m j v = Ok m' → length v = Np.nrows m ∨ length v = 1.
Proof.
  unfold Np.set_column.
  destruct (decide (Np.ncols m ≤ j)%nat); [discriminate|].
  destruct (decide (length v = Np.nrows m)); [by left|].
  destruct v as [|x [|y v]]; try discriminate. by right.
Qed.

Lemma set_column_raise_inv (m : Np.ndarray) j (v : list float) e :
  j < Np.ncols m → Np.set_column m j v = Raise e →
  length v ≠ Np.nrows m ∧ length v ≠ 1.
Proof.
  intros Hj. unfold Np.set_column. rewrite decide_False by lia.
  destruct (decide (length v = Np.nrows m)); [discriminate|].
  destruct v as [|x [|y v]]; try discriminate; simpl; intros _; split;
    try assumption; lia.
Qed.

(** The loop either places every phrase, having asked for each, or
    stops at the first phrase it cannot place, having asked for that
    one last. *)
Lemma loop_outcome (self : GoodbyeModel) (ps : list string) :
  ∀ i m w,
    (i + length ps ≤ Np.ncols m)%nat →
    (is_ok (fst (create_embeddings_loop self i ps m w)) = true ∧
     Forall (λ q, ∃ u, embedding_service w (request_of w q) = Ok u ∧
                       (length u = Np.nrows m ∨ length u = 1)) ps ∧
     snd (create_embeddings_loop self i ps m w)
     = log_provider_calls (map (request_of w) ps) w) ∨
    (∃ pre p post,
       ps = (pre ++ p :: post)%list ∧
       Forall (λ q, ∃ u, embedding_service w (request_of w q) = Ok u ∧
                         (length u = Np.nrows m ∨ length u = 1)) pre ∧
       ¬ (∃ u, embedding_service w (request_of w p) = Ok u ∧
               (length u = Np.nrows m ∨ length u = 1)) ∧
       is_ok (fst (create_embeddings_loop self i ps m w)) = false ∧
       snd (create_embeddings_loop self i ps m w)
       = log_provider_calls (map (request_of w) (pre ++ [p])) w).
Proof.
  induction ps as [|p ps IH]; intros i m w Hi; simpl in *.
  - left. split; [reflexivity|]. split; [constructor|].
    by rewrite log_provider_calls_nil.
  - unfold mbind, M_bind. rewrite create_embedding_eq.
    destruct (embedding_service w (request_of w p)) as [v|e] eqn:Hv.
    + unfold lift. destruct (Np.set_column m i v) as [m1|e] eqn:Hset.
      * pose proof (set_column_ok_inv _ _ _ _ Hset) as Hlen.
        apply BuildFacts.set_column_shape in Hset as [Hr1 Hc1].
        destruct (IH (S i) m1 (log_provider_call (request_of w p) w)
                    ltac:(lia))
          as [(Hok & Hall & Hw) | (pre & q & post & -> & Hall & Hq & Hok & Hw)].
        -- left. split; [exact Hok|]. split.
           ++ constructor; [by exists v|]. rewrite <- Hr1. exact Hall.
           ++ rewrite Hw, log_provider_call_calls, log_provider_calls_app.
              reflexivity.
        -- right. exists (p :: pre), q, post. split; [reflexivity|]. split.
           ++ constructor; [by exists v|]. rewrite <- Hr1. exact Hall.
           ++ split; [rewrite <- Hr1; exact Hq|]. split; [exact Hok|].
              rewrite Hw, log_provider_call_calls, log_provider_calls_app.
              reflexivity.
      * right. exists [], p, ps. split; [reflexivity|]. split; [constructor|].
        split; [|by split].
        intros (u & Hu & Hlen). rewrite Hv in Hu. injection Hu as <-.
        destruct (set_column_raise_inv m i v e ltac:(lia) Hset) as [H1 H2].
        destruct Hlen; contradiction.
    + right. exists [], p, ps. split; [reflexivity|]. split; [constructor|].
      split; [|by split].
      intros (u & Hu & _). rewrite Hv in Hu. discriminate.
Qed.

End OutcomeFacts.

(** X8: [create_embeddings] prints its line once, leaves the files,
    the store and the store log alone, and calls the provider for the
    phrases in their order, one call each.  Either every phrase can be
    placed, the build succeeds and the calls are exactly those of all
    the phrases; or the build fails, the phrases before some phrase
    can all be placed, that phrase cannot (the provider refuses it or
    its answer has neither EMBEDDING_SIZE numbers nor one), and the
    calls are exactly those of the phrases up to and including it. *)
Theorem create_embeddings_calls_in_order (self : GoodbyeModel) (w : World) :
  stdout (snd (create_embeddings self w))
    = (stdout w ++ ["Creating embeddings..."])%list ∧
  files (snd (create_embeddings self w)) = files w ∧
  redis (snd (create_embeddings self w)) = redis w ∧
  redis_log (snd (create_embeddings self w)) = redis_log w ∧
  ((is_ok (fst (create_embeddings self w)) = true ∧
    Forall (placeable w) (goodbye_phrases self) ∧
    provider_calls (snd (create_embeddings self w))
    = (provider_calls w ++ map (request_of w) (goodbye_phrases self))%list) ∨
   (∃ pre p post,
      goodbye_phrases self = (pre ++ p :: post)%list ∧
      Forall (placeable w) pre ∧
      ¬ placeable w p ∧
      is_ok (fst (create_embeddings self w)) = false ∧
      provider_calls (snd (create_embeddings self w))
      = (provider_calls w ++ map (request_of w) (pre ++ [p]))%list)).
Proof.
  rewrite create_embeddings_eq.
  destruct (OutcomeFacts.loop_outcome self (goodbye_phrases self) 0
              (Np.empty (uninit w) EMBEDDING_SIZE (length (goodbye_phrases self)))
              (log_stdout "Creating embeddings..." w) ltac:(simpl; lia))
    as [(Hok & Hall & Hw) | (pre & p & post & Hps & Hall & Hp & Hok & Hw)];
    rewrite Hw; (split; [reflexivity|]); (split; [reflexivity|]);
    (split; [reflexivity|]); (split; [reflexivity|]).
  - left. split; [exact Hok|]. split; [exact Hall | reflexivity].
  - right. exists pre, p, post. split; [exact Hps|]. split; [exact Hall|].
    split; [exact Hp|]. split; [exact Hok | reflexivity].
Qed.

(** X9: an answer whose length is neither EMBEDDING_SIZE nor one (the
    earlier phrases having been placed) ends the build in the
    exception of the column assignment; on a miss both flows end in
    that exception and write nothing. *)
Theorem wrong_dimension_aborts_build (self : GoodbyeModel) (w : World)
  (pre : list string) (p : string) (post : list string) (v : list float) :
  goodbye_phrases self = (pre ++ p :: post)%list →
  Forall (placeable w) pre →
  embedding_service w (request_of w p) = Ok v →
  length v ≠ EMBEDDING_SIZE →
  length v ≠ 1 →
  fst (create_embeddings self w)
    = Raise (NumpyError "could not broadcast input array") ∧
  (∀ path, files w !! path = None →
     fst (_from_path self path w)
       = Raise (NumpyError "could not broadcast input array") ∧
     files (snd (_from_path self path w)) = files w) ∧
  (∀ cm key, config_manager self = Some cm → redis w !! key = None →
     fst (_from_redis self key w)
       = Raise (NumpyError "could not broadcast input array") ∧
     redis (snd (_from_redis self key w)) = redis w).
Proof.
  intros Hps Hpre Hv Hn H1.
  assert (Hb : fst (create_embeddings self w)
               = Raise (NumpyError "could not broadcast input array")).
  { rewrite create_embeddings_eq, Hps.
    apply BuildFacts.loop_abort_shape with (v := v);
      [simpl; rewrite length_app; simpl; lia | exact Hpre | exact Hv
       | exact Hn | exact H1]. }
  split; [exact Hb|]. split.
  - intros path Hmiss.
    assert (Hr : fst (_from_path self path w)
                 = Raise (NumpyError "could not broadcast input array")).
    { rewrite (_from_path_miss self path w Hmiss).
      destruct (create_embeddings self w) as [[m|x] w']; simpl in *; congruence. }
    split; [exact Hr|]. by apply (_from_path_raise_frame self path w _ Hr).
  - intros cm key Hcm Hmiss.
    assert (Hr : fst (_from_redis self key w)
                 = Raise (NumpyError "could not broadcast input array")).
    { rewrite (_from_redis_miss self cm key w Hcm) by (rewrite Hmiss; reflexivity).
      pose proof (create_embeddings_after_get self (StoreGet key) w) as Hsame.
      rewrite Hb in Hsame.
      destruct (create_embeddings self (log_store_op (StoreGet key) w))
        as [[m|x] w']; simpl in *; congruence. }
    split; [exact Hr|]. by apply (_from_redis_raise_frame self key w _ Hr).
Qed.

Lemma wrong_dimension_aborts_build_witness :
  fst (create_embeddings Edge.mismatched Edge.world)
    = Raise (NumpyError "could not broadcast input array") ∧
  (∀ path, files Edge.world !! path = None →
     fst (_from_path Edge.mismatched path Edge.world)
       = Raise (NumpyError "could not broadcast input array") ∧
     files (snd (_from_path Edge.mismatched path Edge.world)) = files Edge.world) ∧
  (∀ cm key, config_manager Edge.mismatched = Some cm →
     redis Edge.world !! key = None →
     fst (_from_redis Edge.mismatched key Edge.world)
       = Raise (NumpyError "could not broadcast input array") ∧
     redis (snd (_from_redis Edge.mismatched key Edge.world)) = redis Edge.world).
Proof.
  apply (wrong_dimension_aborts_build Edge.mismatched Edge.world
           ["see you"] "so long" ["bye"] [1; 2; 3]%float).
  - reflexivity.
  - repeat constructor. exists (repeat 0.25%float EMBEDDING_SIZE).
    split; [reflexivity | left; vm_compute; reflexivity].
  - reflexivity.
  - vm_compute. discriminate.
  - simpl. discriminate.
Defined.

(** X10: a provider whose every answer has EMBEDDING_SIZE numbers or a
    single one: the build succeeds with an array of EMBEDDING_SIZE rows
    and one column per phrase, a full answer is its column, and a
    single number fills its whole column. *)
Theorem one_number_fills_column (self : GoodbyeModel) (w : World) :
  Forall (placeable w) (goodbye_phrases self) →
  ∃ m, fst (create_embeddings self w) = Ok m ∧
    Np.wf m ∧ Np.nrows m = EMBEDDING_SIZE ∧
    Np.ncols m = length (goodbye_phrases self) ∧
    ∀ i p v, goodbye_phrases self !! i = Some p →
      embedding_service w (request_of w p) = Ok v →
      (length v = EMBEDDING_SIZE → Np.column m i = v) ∧
      (∀ x, v = [x] → Np.column m i = repeat x EMBEDDING_SIZE).
Proof.
  intros Hall. rewrite create_embeddings_eq.
  destruct (BuildFacts.loop_placeable self (goodbye_phrases self) 0
              (Np.empty (uninit w) EMBEDDING_SIZE (length (goodbye_phrases self)))
              (log_stdout "Creating embeddings..." w))
    as (m & Hloop & Hwf & Hr & Hc & Hcols & _).
  - apply ColumnFacts.empty_wf.
  - simpl. lia.
  - exact Hall.
  - exists m. split; [exact Hloop|]. split; [exact Hwf|].
    split; [exact Hr|]. split; [exact Hc|].
    intros i p v Hi Hv. apply (Hcols i p v Hi Hv).
Qed.

Lemma one_number_fills_column_witness :
  ∃ m, fst (create_embeddings Edge.broadcasting Edge.world) = Ok m ∧
    Np.wf m ∧ Np.nrows m = EMBEDDING_SIZE ∧
    Np.ncols m = length (goodbye_phrases Edge.broadcasting) ∧
    ∀ i p v, goodbye_phrases Edge.broadcasting !! i = Some p →
      embedding_service Edge.world (request_of Edge.world p) = Ok v →
      (length v = EMBEDDING_SIZE → Np.column m i = v) ∧
      (∀ x, v = [x] → Np.column m i = repeat x EMBEDDING_SIZE).
Proof.
  apply (one_number_fills_column Edge.broadcasting Edge.world).
  repeat constructor.
  - exists [0.5%float]. split; [reflexivity | right; reflexivity].
  - exists (repeat 0.25%float EMBEDDING_SIZE).
    split; [reflexivity | left; vm_compute; reflexivity].
Defined.

(** ** What the flows write *)

Module FlowFacts.

Lemma string_length_append (s t : string) :
  String.length (s ++ t) = (String.length s + String.length t)%nat.
Proof. induction s as [|c s IH]; simpl; [reflexivity | by rewrite IH]. Qed.

Lemma npy_name_other (path : string) :
  Str.endswith path ".npy" = false → npy_name path ≠ path.
Proof.
  intros H E. unfold npy_name in E. rewrite H in E.
  apply (f_equal String.length) in E. rewrite string_length_append in E.
  simpl in E. lia.
Qed.

Lemma npy_name_same (path : string) :
  Str.endswith path ".npy" = true → npy_name path = path.
Proof. intros H. unfold npy_name. by rewrite H. Qed.

(** The world a build leaves, field by field. *)
Lemma create_embeddings_world (self : GoodbyeModel) (w : World) :
  stdout (snd (create_embeddings self w))
    = (stdout w ++ ["Creating embeddings..."])%list ∧
  files (snd (create_embeddings self w)) = files w ∧
  redis (snd (create_embeddings self w)) = redis w ∧
  redis_log (snd (create_embeddings self w)) = redis_log w.
Proof.
  destruct (create_embeddings_frame self w) as (rs & -> & _). by repeat split.
Qed.

Lemma create_embeddings_shape (self : GoodbyeModel) (w : World) m :
  fst (create_embeddings self w) = Ok m →
  Np.nrows m = EMBEDDING_SIZE ∧ Np.ncols m = length (goodbye_phrases self).
Proof.
  rewrite create_embeddings_eq. intros H.
  by apply BuildFacts.loop_shape in H.
Qed.

End FlowFacts.



(** The same miss where the file can be written: the flow returns the
    array and the file holds it. *)
Example _from_path_miss_saves :
  ∃ m,
    fst (_from_path Scenario.fresh Scenario.cache_file Scenario.world)
      = Ok (PArray m) ∧
    files (snd (_from_path Scenario.fresh Scenario.cache_file Scenario.world))
      !! Scenario.cache_file = Some m.
Proof. eexists. split; vm_compute; reflexivity. Qed.

(** X12: for a path that ends in ".npy", a run of the file flow after
    a successful one is a hit, whichever classifier makes it: it
    returns the array of the first run and changes nothing, so the
    provider is not called and the phrases of the second classifier
    play no part. *)
Theorem _from_path_second_run_is_a_hit (self other : GoodbyeModel)
  (path : string) (w : World) :
  Str.endswith path ".npy" = true →
  is_ok (fst (_from_path self path w)) = true →
  _from_path other path (snd (_from_path self path w))
  = (fst (_from_path self path w), snd (_from_path self path w)).
Proof.
  intros Hnpy Hok. destruct (files w !! path) as [m0|] eqn:E.
  - rewrite (_from_path_hit self path w m0 E). simpl.
    apply _from_path_hit, E.
  - rewrite (_from_path_miss self path w E) in *.
    destruct (create_embeddings self w) as [[m|e] w']; simpl in *;
      [|discriminate].
    destruct (can_write w' (npy_name path)); simpl in *; [|discriminate].
    apply _from_path_hit. simpl.
    rewrite (FlowFacts.npy_name_same path Hnpy). apply lookup_insert_eq.
Qed.

Lemma _from_path_second_run_is_a_hit_witness :
  _from_path Edge.other_phrases Scenario.cache_file
             (snd (_from_path Scenario.fresh Scenario.cache_file Scenario.world))
  = (fst (_from_path Scenario.fresh Scenario.cache_file Scenario.world),
     snd (_from_path Scenario.fresh Scenario.cache_file Scenario.world)).
Proof.
  apply (_from_path_second_run_is_a_hit Scenario.fresh Edge.other_phrases
           Scenario.cache_file Scenario.world).
  - reflexivity.
  - vm_compute. reflexivity.
Defined.

(** X13: for a path that does not end in ".npy" the cache never hits.
    [np.save] writes to the path with ".npy" appended, so after a run
    on a miss the path itself still does not exist, and the next run
    builds again: the line of the build is printed a second time. *)
Theorem _from_path_without_suffix_rebuilds (self : GoodbyeModel)
  (path : string) (w : World) :
  Str.endswith path ".npy" = false →
  files w !! path = None →
  files (snd (_from_path self path w)) !! path = None ∧
  stdout (snd (_from_path self path (snd (_from_path self path w))))
  = (stdout w ++ ["Creating embeddings..."; "Creating embeddings..."])%list.
Proof.
  intros Hnpy Hmiss.
  assert (Hstep : ∀ w0, files w0 !! path = None →
    files (snd (_from_path self path w0)) !! path = None ∧
    stdout (snd (_from_path self path w0))
    = (stdout w0 ++ ["Creating embeddings..."])%list).
  { intros w0 H0. rewrite (_from_path_miss self path w0 H0).
    pose proof (FlowFacts.create_embeddings_world self w0) as (Ho & Hf & _).
    destruct (create_embeddings self w0) as [[m|e] w']; simpl in *.
    - destruct (can_write w' (npy_name path)); simpl.
      + split; [|exact Ho].
        rewrite lookup_insert_ne by (by apply FlowFacts.npy_name_other).
        by rewrite Hf.
      + split; [by rewrite Hf | exact Ho].
    - split; [by rewrite Hf | exact Ho]. }
  destruct (Hstep w Hmiss) as [H1 Ho1]. split; [exact H1|].
  destruct (Hstep _ H1) as [_ Ho2]. rewrite Ho2, Ho1.
  by rewrite <- app_assoc.
Qed.

Lemma _from_path_without_suffix_rebuilds_witness :
  files (snd (_from_path Scenario.fresh "/var/cache/embeddings" Scenario.world))
    !! "/var/cache/embeddings" = None ∧
  stdout (snd (_from_path Scenario.fresh "/var/cache/embeddings"
                 (snd (_from_path Scenario.fresh "/var/cache/embeddings"
                                  Scenario.world))))
  = (stdout Scenario.world
       ++ ["Creating embeddings..."; "Creating embeddings..."])%list.
Proof.
  apply (_from_path_without_suffix_rebuilds Scenario.fresh
           "/var/cache/embeddings" Scenario.world); reflexivity.
Defined.

(** X14: on a miss the store flow issues a get and, when the build
    succeeds, one put of the array it returns under the same key; the
    other keys keep their entries and no file is written.  When the
    build fails the get is the only store operation. *)
Theorem _from_redis_miss_puts_once (self : GoodbyeModel)
  (cm : RedisConfigManager) (key : string) (w : World) :
  config_manager self = Some cm →
  redis w !! key = None →
  match fst (_from_redis self key w) with
  | Ok v =>
      ∃ m, v = PArray m ∧ fst (create_embeddings self w) = Ok m ∧
           redis (snd (_from_redis self key w)) !! key = Some m ∧
           (∀ k, k ≠ key →
                 redis (snd (_from_redis self key w)) !! k = redis w !! k) ∧
           redis_log (snd (_from_redis self key w))
           = (redis_log w ++ [StoreGet key; StorePut key m])%list
  | Raise e =>
      fst (create_embeddings self w) = Raise e ∧
      redis (snd (_from_redis self key w)) = redis w ∧
      redis_log (snd (_from_redis self key w))
      = (redis_log w ++ [StoreGet key])%list
  end ∧
  files (snd (_from_redis self key w)) = files w.
Proof.
  intros Hcm Hmiss.
  rewrite (_from_redis_miss self cm key w Hcm) by (rewrite Hmiss; reflexivity).
  pose proof (FlowFacts.create_embeddings_world self
                (log_store_op (StoreGet key) w)) as (_ & Hf & Hr & Hl).
  pose proof (create_embeddings_after_get self (StoreGet key) w) as Hsame.
  destruct (create_embeddings self (log_store_op (StoreGet key) w))
    as [[m|e] w']; simpl in *.
  - split; [|exact Hf]. exists m. split; [reflexivity|]. split; [by symmetry|].
    split; [by rewrite lookup_insert_eq|]. split.
    + intros k Hk. by rewrite lookup_insert_ne, Hr.
    + rewrite Hl. by rewrite <- app_assoc.
  - split; [|exact Hf]. split; [by symmetry|]. by split.
Qed.

Lemma _from_redis_miss_puts_once_witness :
  match fst (_from_redis Scenario.fresh_with_store "default" Scenario.world) with
  | Ok v =>
      ∃ m, v = PArray m ∧
           fst (create_embeddings Scenario.fresh_with_store Scenario.world) = Ok m ∧
           redis (snd (_from_redis Scenario.fresh_with_store "default"
                                   Scenario.world)) !! "default" = Some m ∧
           (∀ k, k ≠ "default" →
                 redis (snd (_from_redis Scenario.fresh_with_store "default"
                                         Scenario.world)) !! k
                 = redis Scenario.world !! k) ∧
           redis_log (snd (_from_redis Scenario.fresh_with_store "default"
                                       Scenario.world))
           = (redis_log Scenario.world
                ++ [StoreGet "default"; StorePut "default" m])%list
  | Raise e =>
      fst (create_embeddings Scenario.fresh_with_store Scenario.world) = Raise e ∧
      redis (snd (_from_redis Scenario.fresh_with_store "default" Scenario.world))
        = redis Scenario.world ∧
      redis_log (snd (_from_redis Scenario.fresh_with_store "default"
                                  Scenario.world))
      = (redis_log Scenario.world ++ [StoreGet "default"])%list
  end ∧
  files (snd (_from_redis Scenario.fresh_with_store "default" Scenario.world))
    = files Scenario.world.
Proof.
  apply (_from_redis_miss_puts_once Scenario.fresh_with_store RedisHandle
           "default" Scenario.world); reflexivity.
Defined.

(** X15: the store flow cannot read back what it wrote.  After a run
    that built and put the array of a classifier with at least one
    phrase, the next run with the same key gets that array, and the
    test [if goodbye_embeddings:] on an array of more than one element
    raises: the entry is never returned. *)
Theorem _from_redis_second_run_raises (self : GoodbyeModel)
  (cm : RedisConfigManager) (key : string) (w : World) :
  config_manager self = Some cm →
  goodbye_phrases self ≠ [] →
  redis w !! key = None →
  is_ok (fst (_from_redis self key w)) = true →
  fst (_from_redis self key (snd (_from_redis self key w)))
  = Raise (NumpyError
      "The truth value of an array with more than one element is ambiguous").
Proof.
  intros Hcm Hps Hmiss Hok.
  rewrite (_from_redis_miss self cm key w Hcm) in * by (rewrite Hmiss; reflexivity).
  destruct (create_embeddings self (log_store_op (StoreGet key) w))
    as [[m|e] w'] eqn:Hb; simpl in *; [|discriminate].
  apply (_from_redis_hit_raises self cm key _ m Hcm).
  - simpl. apply lookup_insert_eq.
  - assert (Hm : fst (create_embeddings self (log_store_op (StoreGet key) w)) = Ok m)
      by (by rewrite Hb).
    apply FlowFacts.create_embeddings_shape in Hm as [Hr Hc].
    unfold Np.size. rewrite Hr, Hc. unfold EMBEDDING_SIZE.
    destruct (goodbye_phrases self); [congruence | simpl; lia].
Qed.

Lemma _from_redis_second_run_raises_witness :
  fst (_from_redis Scenario.fresh_with_store "default"
         (snd (_from_redis Scenario.fresh_with_store "default" Scenario.world)))
  = Raise (NumpyError
      "The truth value of an array with more than one element is ambiguous").
Proof.
  apply (_from_redis_second_run_raises Scenario.fresh_with_store RedisHandle
           "default" Scenario.world).
  - reflexivity.
  - discriminate.
  - reflexivity.
  - vm_compute. reflexivity.
Defined.

(** ** Credential and provider over a run *)

Module TraceFacts.

Lemma trace_fields w w' :
  environ w' = environ w → module_api_key w' = module_api_key w →
  embedding_service w' = embedding_service w →
  provider_calls w' = provider_calls w →
  provider_trace [] w w'.
Proof.
  intros He Hk Hs Hc. repeat split; try assumption.
  simpl. by rewrite app_nil_r.
Qed.

Lemma trace_refl w : provider_trace [] w w.
Proof. by apply trace_fields. Qed.

Lemma trace_trans ts1 ts2 w1 w2 w3 :
  provider_trace ts1 w1 w2 → provider_trace ts2 w2 w3 →
  provider_trace (ts1 ++ ts2) w1 w3.
Proof.
  intros (He1 & Hk1 & Hs1 & Hc1) (He2 & Hk2 & Hs2 & Hc2).
  repeat split; try congruence.
  rewrite Hc2, Hc1, map_app, <- app_assoc. do 2 f_equal.
  apply map_ext. intros t. unfold request_of. by rewrite He1, Hk1.
Qed.

Lemma trace_calls ts w :
  provider_trace ts w (log_provider_calls (map (request_of w) ts) w).
Proof. by repeat split. Qed.

Lemma create_embedding_trace self text w :
  provider_trace [text] w (snd (create_embedding self text w)).
Proof. rewrite create_embedding_eq. by repeat split. Qed.

Lemma create_embeddings_trace self w :
  ∃ ts, provider_trace ts w (snd (create_embeddings self w)).
Proof.
  rewrite create_embeddings_eq.
  destruct (BuildFacts.loop_trace self (goodbye_phrases self) 0
              (Np.empty (uninit w) EMBEDDING_SIZE (length (goodbye_phrases self)))
              (log_stdout "Creating embeddings..." w)) as (n & Hn & _).
  exists (take n (goodbye_phrases self)). rewrite Hn. by repeat split.
Qed.

Lemma is_goodbye_trace self text w :
  ∃ ts, provider_trace ts w (snd (is_goodbye self text w)).
Proof.
  assert (Hslow : ∀ v,
    snd ((embedding ← create_embedding self (Str.lower (Str.strip text));
          similarity_results ← np_matmul embedding v;
          top ← lift (Np.max similarity_results);
          mret (PrimFloat.ltb SIMILARITY_THRESHOLD top)) w)
    = log_provider_call (request_of w (Str.lower (Str.strip text))) w).
  { intros v. unfold mbind, M_bind. rewrite create_embedding_eq.
    destruct (embedding_service w _) as [e|x]; [|reflexivity].
    unfold np_matmul, lift. simpl. destruct (py_matmul _ e v) as [scores|x]; [|reflexivity].
    destruct (Np.max scores) as [top|x]; reflexivity. }
  unfold is_goodbye.
  destruct (goodbye_embeddings self) as [|m|c];
    [exists []; apply trace_refl | |];
    (destruct (Str.contains "bye" (Str.lower text));
     [exists []; apply trace_refl
     | exists [Str.lower (Str.strip text)]; rewrite Hslow; by repeat split]).
Qed.

Lemma _from_path_trace self path w :
  ∃ ts, provider_trace ts w (snd (_from_path self path w)).
Proof.
  destruct (files w !! path) as [m0|] eqn:E.
  - rewrite (_from_path_hit self path w m0 E). exists []. apply trace_refl.
  - rewrite (_from_path_miss self path w E).
    destruct (create_embeddings_trace self w) as [ts H]. exists ts.
    destruct (create_embeddings self w) as [[m|x] w']; simpl in *; [|exact H].
    destruct (can_write w' (npy_name path)); simpl; [|exact H].
    destruct H as (He & Hk & Hs & Hc). by repeat split.
Qed.

Lemma _from_redis_trace self key w :
  ∃ ts, provider_trace ts w (snd (_from_redis self key w)).
Proof.
  unfold _from_redis.
  destruct (config_manager self) as [cm|]; [|exists []; apply trace_refl].
  unfold mbind, M_bind, get_goodbye_embeddings, lift.
  destruct (opt_array_truthy (redis w !! key)) as [[|]|x]; simpl;
    try (exists []; by apply trace_fields).
  destruct (create_embeddings_trace self (log_store_op (StoreGet key) w))
    as [ts H]. exists ts.
  destruct (create_embeddings self _) as [[m|x] w']; simpl in *;
    destruct H as (He & Hk & Hs & Hc); by repeat split.
Qed.

Lemma run_call_trace c self w :
  ∃ ts, provider_trace ts w (snd (run_call c self w)).
Proof.
  destruct c; unfold run_call.
  - rewrite initialize_embeddings_eq. exists []. apply trace_refl.
  - apply is_goodbye_trace.
  - exists [text]. apply create_embedding_trace.
  - apply create_embeddings_trace.
  - rewrite load_or_create_embeddings_eq. exists []. apply trace_refl.
  - apply _from_redis_trace.
  - apply _from_path_trace.
Qed.

End TraceFacts.

(** X16: no call on a classifier changes [openai.api_key], the
    environment or the provider.  Over any sequence of calls, the
    provider calls made along the way are the requests of some texts,
    each sent with the credential the module held at the start. *)
Theorem calls_keep_the_credential (cs : list call) (self : GoodbyeModel)
  (w : World) :
  ∃ ts,
    provider_trace ts w (snd (run_calls cs self w)) ∧
    Forall (λ r, req_api_key r = module_api_key w)
           (map (request_of w) ts).
Proof.
  assert (H : ∃ ts, provider_trace ts w (snd (run_calls cs self w))).
  { revert self w. induction cs as [|c cs IH]; intros self w; simpl.
    - exists []. apply TraceFacts.trace_refl.
    - destruct (TraceFacts.run_call_trace c self w) as [ts1 H1].
      destruct (run_call c self w) as [self' w']. simpl in H1.
      destruct (IH self' w') as [ts2 H2].
      exists (ts1 ++ ts2)%list. by apply TraceFacts.trace_trans with w'. }
  destruct H as [ts H]. exists ts. split; [exact H|].
  apply Forall_forall. intros r Hr.
  apply list_elem_of_In, in_map_iff in Hr as (t & <- & _). reflexivity.
Qed.

(** ** The classifier after [initialize_embeddings] *)

(** X17: after [initialize_embeddings], [is_goodbye] answers exactly
    the inputs whose lowercasing contains "bye", and answers them
    [True]; on every other input it raises.  It never returns
    [False]. *)
Theorem initialized_classifier_answers_bye_only (self : GoodbyeModel)
  (w : World) (text : string) :
  ∃ self',
    initialize_embeddings self w = (Ok self', w) ∧
    is_ok (fst (is_goodbye self' text w)) = Str.contains "bye" (Str.lower text) ∧
    (Str.contains "bye" (Str.lower text) = true →
     is_goodbye self' text w = (Ok true, w)) ∧
    fst (is_goodbye self' text w) ≠ Ok false.
Proof.
  eexists. split; [apply initialize_embeddings_eq|].
  unfold is_goodbye. simpl.
  destruct (Str.contains "bye" (Str.lower text)).
  - split; [reflexivity|]. split; [reflexivity | discriminate].
  - unfold mbind, M_bind. rewrite create_embedding_eq.
    destruct (embedding_service w _) as [v|x]; simpl;
      (split; [reflexivity|]); (split; [discriminate | discriminate]).
Qed.

(** ** Scores that are NaN, and the score that decides *)

Module ScoreFacts.
Import FloatOrder FloatOrderFacts.

Lemma SFltb_lex f1 f2 :
  f1 ≠ S754_nan → f2 ≠ S754_nan →
  SFltb f1 f2 = true ↔ lex_lt (sf_key f1) (sf_key f2).
Proof.
  intros H1 H2. unfold SFltb, SFcompare.
  destruct f1 as [s1|s1| |s1 m1 e1], f2 as [s2|s2| |s2 m2 e2];
    try congruence;
    try (destruct s1); try (destruct s2); try close_case.
  - destruct (Z.compare_spec e1 e2); try close_case.
    change (Pos.compare_cont Eq m1 m2) with (Pos.compare m1 m2).
    destruct (Pos.compare_spec m1 m2); close_case.
  - destruct (Z.compare_spec e1 e2); try close_case.
    change (Pos.compare_cont Eq m1 m2) with (Pos.compare m1 m2).
    destruct (Pos.compare_spec m1 m2); close_case.
Qed.

Lemma ltb_lex x y :
  PrimFloat.is_nan x = false → PrimFloat.is_nan y = false →
  PrimFloat.ltb x y = true ↔ lex_lt (sf_key (Prim2SF x)) (sf_key (Prim2SF y)).
Proof.
  intros Hx Hy. rewrite FloatAxioms.ltb_spec.
  apply SFltb_lex; apply is_nan_spec; assumption.
Qed.

Lemma lex_lt_le_trans a b c : lex_lt a b → lex_le b c → lex_lt a c.
Proof.
  destruct a as [[? ?] ?], b as [[? ?] ?], c as [[? ?] ?]. simpl. lia.
Qed.

Lemma ltb_leb_trans x y z :
  PrimFloat.is_nan x = false → PrimFloat.is_nan y = false →
  PrimFloat.is_nan z = false →
  PrimFloat.ltb x y = true → PrimFloat.leb y z = true →
  PrimFloat.ltb x z = true.
Proof.
  intros Hx Hy Hz Hxy Hyz. apply ltb_lex; try assumption.
  apply lex_lt_le_trans with (sf_key (Prim2SF y));
    [by apply ltb_lex | by apply leb_lex].
Qed.

End ScoreFacts.

(** X18: when no score is NaN, the slow path answers [True] exactly
    when the inner product of the input's embedding with some
    reference column is above the threshold. *)
Theorem is_goodbye_iff_some_column (self : GoodbyeModel) (m : Np.ndarray)
  (text : string) (w : World) (e : list float) :
  goodbye_embeddings self = PArray m →
  Str.contains "bye" (Str.lower text) = false →
  embedding_service w (request_of w (Str.lower (Str.strip text))) = Ok e →
  length e = Np.nrows m →
  Forall (λ s, PrimFloat.is_nan s = false)
         (similarity_scores (inner_product w) e m) →
  fst (is_goodbye self text w) = Ok true ↔
  ∃ j, j < Np.ncols m ∧
       PrimFloat.ltb SIMILARITY_THRESHOLD (inner_product w e (Np.column m j)) = true.
Proof.
  intros Hm Hbye He Hlen Hnan.
  rewrite (is_goodbye_slow_eq self m text w Hm Hbye), He. simpl.
  unfold Np.matmul. rewrite decide_True by exact Hlen.
  fold (similarity_scores (inner_product w) e m).
  assert (Hscore : ∀ s, s ∈ similarity_scores (inner_product w) e m ↔
            ∃ j, j < Np.ncols m ∧ s = inner_product w e (Np.column m j)).
  { intros s. unfold similarity_scores. rewrite list_elem_of_In, in_map_iff.
    split.
    - intros (j & <- & Hj). apply in_seq in Hj. exists j. split; [lia | reflexivity].
    - intros (j & Hj & ->). exists j. split; [reflexivity|]. apply in_seq. lia. }
  destruct (similarity_scores (inner_product w) e m) as [|x t] eqn:Hs.
  - simpl. split; [discriminate|]. intros (j & Hj & _).
    assert (inner_product w e (Np.column m j) ∈ @nil float) as Hin
      by (apply Hscore; eauto).
    by apply elem_of_nil in Hin.
  - destruct (NpFacts.max_spec (x :: t)) as (top & Hmax & Hin & Hub);
      [discriminate|].
    rewrite Hmax. specialize (Hub Hnan). split.
    + intros [= Htop]. apply Hscore in Hin as (j & Hj & ->). eauto.
    + intros (j & Hj & Hlt). f_equal.
      assert (Hsj : inner_product w e (Np.column m j) ∈ x :: t) by (apply Hscore; eauto).
      rewrite Forall_forall in Hub, Hnan.
      apply ScoreFacts.ltb_leb_trans with (y := inner_product w e (Np.column m j));
        [reflexivity | by apply Hnan | by apply Hnan | exact Hlt | by apply Hub].
Qed.

Lemma is_goodbye_iff_some_column_witness :
  fst (is_goodbye Scenario.classifier "talk to you later" Scenario.world) = Ok true ↔
  ∃ j, j < Np.ncols Scenario.reference ∧
       PrimFloat.ltb SIMILARITY_THRESHOLD
         (Np.dot [0.6; 0.8]%float (Np.column Scenario.reference j)) = true.
Proof.
  apply (is_goodbye_iff_some_column Scenario.classifier Scenario.reference
           "talk to you later" Scenario.world [0.6; 0.8]%float);
    try reflexivity.
  repeat constructor.
Defined.

(** X19: one score that is NaN decides against a goodbye: [np.max]
    returns NaN, NaN is not above the threshold, and the answer is
    [False] whatever the other scores are. *)
Theorem nan_score_answers_false (self : GoodbyeModel) (m : Np.ndarray)
  (text : string) (w : World) (e : list float) :
  goodbye_embeddings self = PArray m →
  Str.contains "bye" (Str.lower text) = false →
  embedding_service w (request_of w (Str.lower (Str.strip text))) = Ok e →
  length e = Np.nrows m →
  Exists (λ s, PrimFloat.is_nan s = true)
         (similarity_scores (inner_product w) e m) →
  fst (is_goodbye self text w) = Ok false ∧
  ∃ top, Np.max (similarity_scores (inner_product w) e m) = Ok top ∧ PrimFloat.is_nan top = true.
Proof.
  intros Hm Hbye He Hlen Hnan.
  split; [by apply (is_goodbye_nan_score self m text w e)|].
  destruct (similarity_scores (inner_product w) e m) as [|x t];
    [by apply Exists_nil in Hnan|].
  eexists. split; [reflexivity|]. by apply NpFacts.fold_maximum_nan.
Qed.

Lemma nan_score_answers_false_witness :
  similarity_scores Np.dot [2; PrimFloat.infinity]%float Scenario.reference
    = [PrimFloat.nan; PrimFloat.infinity] ∧
  fst (is_goodbye Scenario.classifier "what time is it" Edge.world_with_infinity)
    = Ok false ∧
  ∃ top,
    Np.max (similarity_scores Np.dot [2; PrimFloat.infinity]%float Scenario.reference)
      = Ok top ∧
    PrimFloat.is_nan top = true.
Proof.
  split; [vm_compute; reflexivity|].
  apply (nan_score_answers_false Scenario.classifier Scenario.reference
           "what time is it" Edge.world_with_infinity
           [2; PrimFloat.infinity]%float);
    try reflexivity.
  apply Exists_cons_hd. vm_compute. reflexivity.
Defined.
